(** * FitTrack Pro: nutrition roll-up, day bucketing, GPS activity metrics,
      challenge leaderboard and the create-request validators.

    The development follows the TypeScript sources:
    - [app/api/charts/progress/route.ts] and the dashboard page
      ([getDashboardData]) for the macro totals and the per-day grouping,
    - the nutrition-insights route for the [dailyData] grouping,
    - the record-activity page for [calculateDistance], the geolocation
      callback, [avgPace] and [elevationGain],
    - [app/api/challenges/[id]/leaderboard/route.ts] for the leaderboard,
    - [app/api/challenges/route.ts] and the meal [foods] route for the
      request validation and the incremental meal counters.

    Numbers.  Where a property rests on the arithmetic itself (the sums of
    the day groupings, the averages of the insights route, the progress
    bars of the dashboard) a JavaScript [number] is the IEEE 754 double it
    is: module [Binary64] uses the primitive binary64 numbers and their
    rounded operations.  Elsewhere a [number] is modelled as a real number
    of the Standard Library ([R]), for statements that do not depend on
    how sums are grouped or rounded; where the source can produce a
    non-finite value (a division by zero) the operation is written out
    with an explicit result type.  Counters that the source only ever
    increments from zero ([duration], array indices) are [nat]. *)

From Stdlib Require Import Reals Lra Lia List.
From Stdlib Require PrimFloat.
From stdpp Require Import gmap strings pretty.
Import ListNotations.

Open Scope R_scope.

(** ** JavaScript values *)

Module Js.

(** [!x] on a number: zero is falsy, every other real is truthy. *)
Definition falsy (x : R) : bool := if Req_dec_T x 0 then true else false.

(** The value of an optional number when it is truthy: [undefined], [null]
    and [0] are falsy.  [x || undefined] is [truthy x], and [!x] holds
    exactly when [truthy x] is [None]. *)
Definition truthy (x : option R) : option R :=
  match x with
  | None => None
  | Some v => if falsy v then None else Some v
  end.

(** The value of an optional string when it is truthy ([""] is falsy). *)
Definition truthy_str (x : option string) : option string :=
  match x with
  | None => None
  | Some s => if decide (s = ""%string) then None else Some s
  end.

(** [a > b] *)
Definition gt (a b : R) : bool := if Rlt_dec b a then true else false.

(** Sum of a list of numbers, left to right from [0], the way
    [xs.reduce((a, x) => a + x, 0)] runs. *)
Definition sum (xs : list R) : R := fold_left Rplus xs 0.

(** The result of an arithmetic expression that may leave the finite
    numbers: [NonFinite] stands for [NaN], [Infinity] and [-Infinity]. *)
Inductive Result :=
| Finite (r : R)
| NonFinite.

(** [x / y]: a zero divisor gives [NaN] or an infinity. *)
Definition div (x y : R) : Result :=
  if Req_dec_T y 0 then NonFinite else Finite (x / y).

Definition bind (x : Result) (k : R -> Result) : Result :=
  match x with
  | Finite r => k r
  | NonFinite => NonFinite
  end.

End Js.

(** ** [Map<string, V>]: keys in insertion order *)

Module JsMap.

Section WithValue.
Context {V : Type}.

Fixpoint get (m : list (string * V)) (k : string) : option V :=
  match m with
  | [] => None
  | (k', v) :: rest => if decide (k' = k) then Some v else get rest k
  end.

Definition has (m : list (string * V)) (k : string) : bool :=
  match get m k with
  | Some _ => true
  | None => false
  end.

(** [m.set(k, v)]: an existing key keeps its place, a new key goes last. *)
Fixpoint set (m : list (string * V)) (k : string) (v : V) : list (string * V) :=
  match m with
  | [] => [(k, v)]
  | (k', v') :: rest =>
      if decide (k' = k) then (k, v) :: rest else (k', v') :: set rest k v
  end.

(** [Array.from(m.values())] *)
Definition values (m : list (string * V)) : list V := map snd m.

(** The sum of a numeric field over the values of a map. *)
Definition sumOver (f : V -> R) (m : list (string * V)) : R :=
  Js.sum (map f (values m)).

End WithValue.

End JsMap.

(** ** The tables of the Prisma schema the routes read and write *)

Module Db.

(** A row of [FoodEntry] (the columns the roll-up reads). *)
Record FoodEntry := mkFoodEntry {
  fe_mealId   : string;
  foodName    : string;
  quantity    : R;
  calories    : R;
  protein     : R;
  carbs       : R;
  fats        : R
}.

(** A row of [Meal], with its incremental counters. *)
Record Meal := mkMeal {
  meal_userId   : string;
  meal_date     : Z;
  totalCalories : R;
  totalProtein  : R;
  totalCarbs    : R;
  totalFats     : R
}.

Record User := mkUser {
  user_id    : string;
  user_email : string
}.

Inductive ChallengeType := steps | distance | weight_loss | workout_count.

Record Challenge := mkChallenge {
  ch_creatorId   : string;
  ch_name        : string;
  ch_description : option string;
  challengeType  : ChallengeType;
  goalValue      : R;
  startDate      : Z;
  endDate        : Z;
  isPublic       : bool
}.

Record ChallengeParticipation := mkParticipation {
  cp_challengeId : string;
  cp_userId      : string;
  joinedAt       : Z
}.

Record Activity := mkActivity {
  act_userId    : string;
  act_distance  : option R;
  act_startTime : Z
}.

(** The database: tables keyed by primary key; participations and
    activities in the order [findMany] returns them. *)
Record t := mk {
  users          : list User;
  meals          : gmap string Meal;
  foodEntries    : gmap string FoodEntry;
  challenges     : gmap string Challenge;
  participations : list ChallengeParticipation;
  activities     : list Activity
}.

Definition empty : t := mk [] ∅ ∅ ∅ [] [].

(** A meal fetched with [include: { foodEntries: true }]. *)
Record MealWithEntries := mkMealWithEntries {
  meal : Meal;
  entries : list FoodEntry
}.

End Db.

(** ** Nutrition roll-up *)

Module Nutrition.
Import Db.

(** The accumulator object [{ calories, protein, carbs, fats }]. *)
Record Macros := mkMacros {
  m_calories : R;
  m_protein  : R;
  m_carbs    : R;
  m_fats     : R
}.

Definition zeroMacros : Macros := mkMacros 0 0 0 0.

Definition addMacros (a b : Macros) : Macros :=
  mkMacros (m_calories a + m_calories b) (m_protein a + m_protein b)
           (m_carbs a + m_carbs b) (m_fats a + m_fats b).

(** The reducer of [meal.foodEntries.reduce(...)], the same text in the
    charts route and in [getDashboardData]. *)
Definition addFood (acc : Macros) (food : FoodEntry) : Macros :=
  mkMacros (m_calories acc + calories food * quantity food)
           (m_protein acc + protein food * quantity food)
           (m_carbs acc + carbs food * quantity food)
           (m_fats acc + fats food * quantity food).

(** [const mealTotals = meal.foodEntries.reduce(addFood, zero)] *)
Definition mealTotals (foodEntries : list FoodEntry) : Macros :=
  fold_left addFood foodEntries zeroMacros.

(** [todayTotals]: the outer reduce of [getDashboardData] over the meals
    of the day. *)
Definition todayTotals (todayMeals : list MealWithEntries) : Macros :=
  fold_left (fun acc m => addMacros acc (mealTotals (entries m)))
            todayMeals zeroMacros.

(** Sum over the entries of quantity times a per-unit field. *)
Definition weighted (perUnit : FoodEntry -> R) (foodEntries : list FoodEntry) : R :=
  Js.sum (map (fun food => quantity food * perUnit food) foodEntries).

(** Field-wise sum of a list of totals. *)
Definition sumMacros (xs : list Macros) : Macros :=
  mkMacros (Js.sum (map m_calories xs)) (Js.sum (map m_protein xs))
           (Js.sum (map m_carbs xs)) (Js.sum (map m_fats xs)).

End Nutrition.

(** ** Day bucketing *)

Module Bucketing.
Import Db Nutrition.

Section WithClock.

(** [date.toISOString().split('T')[0]]: the UTC calendar day of an instant
    (milliseconds since the epoch) as [YYYY-MM-DD]. *)
Variable isoDate : Z -> string.

(** *** Charts route: [nutritionByDate] *)

(** One turn of [meals.forEach]. [get(dateKey) || zero]: a stored object
    is always truthy. *)
Definition nutritionStep (nutritionByDate : list (string * Macros))
    (m : MealWithEntries) : list (string * Macros) :=
  let dateKey := isoDate (meal_date (meal m)) in
  let totals := mealTotals (entries m) in
  let existing := default zeroMacros (JsMap.get nutritionByDate dateKey) in
  JsMap.set nutritionByDate dateKey (addMacros existing totals).

Definition nutritionByDate (mealRows : list MealWithEntries) : list (string * Macros) :=
  fold_left nutritionStep mealRows [].

(** [Array.from(nutritionByDate.entries()).map(([date, totals]) => ({date, ...totals}))] *)
Definition nutritionData (mealRows : list MealWithEntries) : list (string * Macros) :=
  map (fun '(date, totals) => (date, totals)) (nutritionByDate mealRows).

End WithClock.

End Bucketing.

(** ** The record-activity page *)

Module RecordActivity.

(** [GeolocationCoordinates]: [altitude] is [number | null]. *)
Record Coordinates := mkCoordinates {
  latitude        : R;
  longitude       : R;
  coords_altitude : option R
}.

Record GeolocationPosition := mkGeolocationPosition {
  coords       : Coordinates;
  gp_timestamp : R
}.

(** [interface Position { lat; lng; timestamp; altitude? }] *)
Record Position := mkPosition {
  lat       : R;
  lng       : R;
  timestamp : R;
  altitude  : option R
}.

Inductive ActivityType := running | cycling | walking | hiking.

(** [Math.atan2(y, x)] on the reals. *)
Definition atan2 (y x : R) : R :=
  if Rlt_dec 0 x then atan (y / x)
  else if Rlt_dec x 0 then
    (if Rle_dec 0 y then atan (y / x) + PI else atan (y / x) - PI)
  else if Rlt_dec 0 y then PI / 2
  else if Rlt_dec y 0 then - (PI / 2)
  else 0.

(** Distance between two coordinates (Haversine formula), in km.
    [Math.sqrt] is the square root of the Standard Library, which agrees
    with it on the non-negative reals; for latitudes between -90 and 90
    degrees both arguments of [sqrt] are non-negative. *)
Definition calculateDistance (lat1 lon1 lat2 lon2 : R) : R :=
  let R := 6371 in
  let dLat := (lat2 - lat1) * PI / 180 in
  let dLon := (lon2 - lon1) * PI / 180 in
  let a :=
    sin (dLat / 2) * sin (dLat / 2) +
    cos (lat1 * PI / 180) * cos (lat2 * PI / 180) *
    sin (dLon / 2) * sin (dLon / 2) in
  let c := 2 * atan2 (sqrt a) (sqrt (1 - a)) in
  R * c.

(** The React state of the page that the metrics read. *)
Record Recorder := mkRecorder {
  positions : list Position;
  distance  : R;
  duration  : nat
}.

(** [startRecording]: [setPositions([])], [setDistance(0)], [setDuration(0)]. *)
Definition startRecording : Recorder := mkRecorder [] 0 0.

(** [const newPos = { lat, lng, timestamp, altitude: coords.altitude || undefined }] *)
Definition newPos (position : GeolocationPosition) : Position :=
  mkPosition (latitude (coords position)) (longitude (coords position))
             (gp_timestamp position)
             (Js.truthy (coords_altitude (coords position))).

(** The distance between two recorded positions. *)
Definition stepDistance (p q : Position) : R :=
  calculateDistance (lat p) (lng p) (lat q) (lng q).

(** The success callback of [watchPosition]: the new position is appended;
    when there was a previous one and the step is longer than 5 meters
    ([dist > 0.005]) the step is added to [distance]. *)
Definition onPosition (st : Recorder) (position : GeolocationPosition) : Recorder :=
  let prev := positions st in
  let updated := prev ++ [newPos position] in
  let distance' :=
    match last prev with
    | None => distance st
    | Some lastPos =>
        let dist := stepDistance lastPos (newPos position) in
        if Js.gt dist 0.005 then distance st + dist else distance st
    end in
  mkRecorder updated distance' (duration st).

(** The timer: [setDuration((d) => d + 1)] once a second while not paused. *)
Definition tick (st : Recorder) : Recorder :=
  mkRecorder (positions st) (distance st) (duration st + 1).

(** The state after the fixes of a recording have been delivered. *)
Definition record (fixes : list GeolocationPosition) : Recorder :=
  fold_left onPosition fixes startRecording.

(** [duration > 0 && distance > 0 ? (duration / 60) / distance : 0], the
    text of both [avgPace] and [currentPace]. *)
Definition avgPace (duration : nat) (distance : R) : Js.Result :=
  if (0 <? duration)%nat && Js.gt distance 0
  then Js.bind (Js.div (INR duration) 60) (fun minutes => Js.div minutes distance)
  else Js.Finite 0.

Definition currentPace : nat -> R -> Js.Result := avgPace.

(** The reducer of [elevationGain].  [None] is a thrown [TypeError] (the
    property read on an [undefined] element [positions[idx - 1]]). *)
Definition gainStep (positions : list Position) (gain : option R)
    (item : nat * Position) : option R :=
  match gain with
  | None => None
  | Some gain =>
      let '(idx, pos) := item in
      if (idx =? 0)%nat then Some gain
      else match Js.truthy (altitude pos) with
           | None => Some gain
           | Some alt =>
               match positions !! (idx - 1)%nat with
               | None => None
               | Some before =>
                   match Js.truthy (altitude before) with
                   | None => Some gain
                   | Some altBefore =>
                       let diff := alt - altBefore in
                       if Js.gt diff 0 then Some (gain + diff) else Some gain
                   end
               end
           end
  end.

(** [positions.reduce((gain, pos, idx) => ..., 0)] *)
Definition elevationGain (positions : list Position) : option R :=
  fold_left (gainStep positions) (combine (seq 0 (length positions)) positions) (Some 0).

Definition caloriesPerKm (activityType : ActivityType) : R :=
  match activityType with
  | running => 60
  | cycling => 30
  | walking => 50
  | hiking => 55
  end.

(** [const calories = distance * caloriesPerKm[activityType]] *)
Definition calories (st : Recorder) (activityType : ActivityType) : R :=
  distance st * caloriesPerKm activityType.

(** *** What the page is specified to compute *)

(** The contribution of one step to the distance: the step itself unless
    it is within the 5 meter noise threshold. *)
Definition contribution (p q : Position) : R :=
  if Js.gt (stepDistance p q) 0.005 then stepDistance p q else 0.

(** Accumulated distance over the consecutive pairs of a path. *)
Fixpoint pathDistance (path : list Position) : R :=
  match path with
  | p :: (q :: _) as rest => contribution p q + pathDistance rest
  | _ => 0
  end.

(** The altitudes the reducer of [elevationGain] can use: [!pos.altitude]
    skips a position whose altitude is missing or zero. *)
Definition usableAltitudes (positions : list Position) : list (option R) :=
  map (fun p => Js.truthy (altitude p)) positions.

(** One positive altitude delta; a missing altitude on either side gives 0. *)
Definition climb (before after : option R) : R :=
  match before, after with
  | Some a, Some b => if Js.gt (b - a) 0 then b - a else 0
  | _, _ => 0
  end.

(** Sum of the positive consecutive altitude deltas of a list of
    (possibly missing) altitudes. *)
Fixpoint positiveDeltas (altitudes : list (option R)) : R :=
  match altitudes with
  | a :: (b :: _) as rest => climb a b + positiveDeltas rest
  | _ => 0
  end.

End RecordActivity.

(** ** Requests, responses and the zod schemas *)

Module Zod.

(** A JSON value of a request body, one level deep. *)
Inductive json :=
| JNull
| JBool (b : bool)
| JNumber (n : R)
| JString (s : string)
| JArray
| JObject.

(** What [await req.json()] gives: a rejection, a value that is no object,
    or an object with its properties. *)
Inductive Body :=
| InvalidJson
| NonObject
| Object (fields : gmap string json).

Inductive IssueCode := invalid_type | too_small | invalid_enum_value.

(** The message of an issue: the one given in the schema, or the default
    text of the library for the issue code. *)
Inductive Message :=
| Custom (text : string)
| Default (code : IssueCode).

Record ZodIssue := mkIssue {
  path    : string;
  message : Message
}.

(** A parse collects the issues of all properties, in schema order. *)
Definition Parsed (A : Type) : Type := (list ZodIssue + A)%type.

Definition ap {A B : Type} (f : Parsed (A -> B)) (x : Parsed A) : Parsed B :=
  match f, x with
  | inr f, inr x => inr (f x)
  | inl e, inr _ => inl e
  | inr _, inl e => inl e
  | inl e1, inl e2 => inl (e1 ++ e2)
  end.

(** [z.string()] *)
Definition string_ (path : string) (v : option json) : Parsed string :=
  match v with
  | Some (JString s) => inr s
  | _ => inl [mkIssue path (Default invalid_type)]
  end.

(** [z.string().min(1, msg)] *)
Definition string_min1 (path msg : string) (v : option json) : Parsed string :=
  match v with
  | Some (JString s) =>
      if decide (s = ""%string) then inl [mkIssue path (Custom msg)] else inr s
  | _ => inl [mkIssue path (Default invalid_type)]
  end.

(** [z.number()] *)
Definition number_ (path : string) (v : option json) : Parsed R :=
  match v with
  | Some (JNumber n) => inr n
  | _ => inl [mkIssue path (Default invalid_type)]
  end.

(** [z.number().positive(msg?)] *)
Definition number_positive (path : string) (msg : option string)
    (v : option json) : Parsed R :=
  match v with
  | Some (JNumber n) =>
      if Js.gt n 0 then inr n
      else inl [mkIssue path (from_option Custom (Default too_small) msg)]
  | _ => inl [mkIssue path (Default invalid_type)]
  end.

(** [z.boolean()] *)
Definition boolean_ (path : string) (v : option json) : Parsed bool :=
  match v with
  | Some (JBool b) => inr b
  | _ => inl [mkIssue path (Default invalid_type)]
  end.

(** [z.enum([...])], with the value each literal stands for. *)
Definition enum_ {A : Type} (path : string) (literals : list (string * A))
    (v : option json) : Parsed A :=
  match v with
  | Some (JString s) =>
      match JsMap.get literals s with
      | Some a => inr a
      | None => inl [mkIssue path (Default invalid_enum_value)]
      end
  | _ => inl [mkIssue path (Default invalid_type)]
  end.

(** [schema.optional()] *)
Definition optional {A : Type} (schema : option json -> Parsed A)
    (v : option json) : Parsed (option A) :=
  match v with
  | None => inr None
  | _ => ap (inr Some) (schema v)
  end.

(** [schema.optional().nullable()] *)
Definition optional_nullable {A : Type} (schema : option json -> Parsed A)
    (v : option json) : Parsed (option A) :=
  match v with
  | None | Some JNull => inr None
  | _ => ap (inr Some) (schema v)
  end.

(** The parse fails and reports the given issue. *)
Definition rejects {A : Type} (p : Parsed A) (issue : ZodIssue) : Prop :=
  match p with
  | inl issues => In issue issues
  | inr _ => False
  end.

(** [z.object(shape)] applied to a body. *)
Definition object {A : Type} (shape : gmap string json -> Parsed A)
    (body : Body) : Parsed A :=
  match body with
  | Object fields => shape fields
  | _ => inl [mkIssue "" (Default invalid_type)]
  end.

End Zod.

Module Http.

(** [session?.user]: the identity the auth provider issued, if any. *)
Record SessionUser := mkSessionUser {
  su_id    : option string;
  su_email : option string
}.

Definition Session : Type := option SessionUser.

(** [NextResponse.json(payload, { status })], [NextResponse.json({ error },
    { status })], or a handler that returns nothing. *)
Inductive Response (A : Type) :=
| Success (status : nat) (payload : A)
| Failure (status : nat) (error : Zod.Message)
| NoResponse.

Arguments Success {A} status payload.
Arguments Failure {A} status error.
Arguments NoResponse {A}.

End Http.

(** ** [GET /api/challenges/[id]/leaderboard] *)

Module LeaderboardRoute.
Import Db Http.

Record LeaderboardEntry := mkEntry {
  le_userId          : string;
  le_name            : string;
  le_email           : string;
  progress           : R;
  progressPercentage : R;
  le_joinedAt        : Z;
  isCompleted        : bool;
  rank               : nat
}.

Record Payload := mkPayload {
  challenge   : Challenge;
  leaderboard : list LeaderboardEntry
}.

(** The callback of [participants.map((p, index) => ...)]. *)
Definition entry (index : nat) (p : ChallengeParticipation) : LeaderboardEntry :=
  mkEntry (cp_userId p) "Test User" "test@test.com" 0 0 (joinedAt p) false (index + 1).

(** [prisma.user.findUnique({ where: { email } })] *)
Definition findUser (db : Db.t) (email : string) : option User :=
  find (fun u => bool_decide (user_email u = email)) (users db).

(** [prisma.challengeParticipation.findMany({ where: { challengeId } })] *)
Definition findParticipants (db : Db.t) (challengeId : string) : list ChallengeParticipation :=
  filter (fun p => cp_challengeId p = challengeId) (participations db).

Definition GET (db : Db.t) (session : Session) (challengeId : string) : Response Payload :=
  match Js.truthy_str (session ≫= su_email) with
  | None => Failure 401 (Zod.Custom "Unauthorized")
  | Some email =>
      match findUser db email with
      | None => Failure 401 (Zod.Custom "User not found")
      | Some _ =>
          match challenges db !! challengeId with
          | None => Failure 404 (Zod.Custom "Challenge not found")
          | Some challenge =>
              let participants := findParticipants db challengeId in
              Success 200 (mkPayload challenge (imap entry participants))
          end
      end
  end.

(** *** What the leaderboard is specified to compute for a distance
        challenge: the summed distance of the participant's activities. *)
Definition summedDistance (db : Db.t) (userId : string) : R :=
  Js.sum (map (fun a => default 0 (act_distance a))
              (filter (fun a => act_userId a = userId) (activities db))).

End LeaderboardRoute.

(** ** [POST /api/challenges] *)

Module ChallengesRoute.
Import Db Http Zod.

Record ChallengeInput := mkChallengeInput {
  in_name          : string;
  in_description   : option string;
  in_challengeType : ChallengeType;
  in_goalValue     : R;
  in_startDate     : string;
  in_endDate       : string;
  in_isPublic      : option bool
}.

Definition challengeTypes : list (string * ChallengeType) :=
  [("steps"%string, steps); ("distance"%string, distance);
   ("weight_loss"%string, weight_loss); ("workout_count"%string, workout_count)].

Definition challengeShape (fields : gmap string json) : Parsed ChallengeInput :=
  ap (ap (ap (ap (ap (ap (ap (inr mkChallengeInput)
    (string_min1 "name" "Name is required" (fields !! "name"%string)))
    (optional_nullable (string_ "description") (fields !! "description"%string)))
    (enum_ "challengeType" challengeTypes (fields !! "challengeType"%string)))
    (number_positive "goalValue" (Some "Goal value must be positive"%string)
                     (fields !! "goalValue"%string)))
    (string_ "startDate" (fields !! "startDate"%string)))
    (string_ "endDate" (fields !! "endDate"%string)))
    (optional (boolean_ "isPublic") (fields !! "isPublic"%string)).

Definition challengeSchema : Body -> Parsed ChallengeInput := object challengeShape.

Section WithRuntime.

(** [new Date(s)]: the instant a string denotes, [None] for an invalid date
    (which [prisma] refuses with an exception). *)
Variable parseDate : string -> option Z.

(** The handler.  [newId] and [now] are the [cuid()] and the [now()] the
    database fills in.  An exception that is no [ZodError] is swallowed by
    the [catch] block, and the handler returns nothing. *)
Definition POST (db : Db.t) (session : Session) (body : Body)
    (newId : string) (now : Z) : Response Challenge * Db.t :=
  match Js.truthy_str (session ≫= su_id) with
  | None => (Failure 401 (Custom "Unauthorized"), db)
  | Some userId =>
      match body with
      | InvalidJson => (NoResponse, db)
      | _ =>
          match challengeSchema body with
          | inl [] => (NoResponse, db)
          | inl (first :: _) => (Failure 400 (message first), db)
          | inr data =>
              match parseDate (in_startDate data), parseDate (in_endDate data),
                    challenges db !! newId with
              | Some startDate, Some endDate, None =>
                  let challenge :=
                    mkChallenge userId (in_name data) (in_description data)
                                (in_challengeType data) (in_goalValue data)
                                startDate endDate (default true (in_isPublic data)) in
                  let db' :=
                    Db.mk (users db) (meals db) (foodEntries db)
                          (<[newId := challenge]> (challenges db))
                          (participations db ++ [mkParticipation newId userId now])
                          (activities db) in
                  (Success 201 challenge, db')
              | _, _, _ => (NoResponse, db)
              end
          end
      end
  end.

End WithRuntime.

End ChallengesRoute.

(** ** [POST] and [DELETE /api/meals/[id]/foods] *)

Module FoodsRoute.
Import Db Http Zod.

Record FoodInput := mkFoodInput {
  in_foodName    : string;
  in_brand       : option string;
  in_servingSize : string;
  in_servingUnit : string;
  in_quantity    : R;
  in_calories    : R;
  in_protein     : R;
  in_carbs       : R;
  in_fats        : R;
  in_fiber       : option R;
  in_sugar       : option R;
  in_sodium      : option R
}.

Definition foodEntryShape (fields : gmap string json) : Parsed FoodInput :=
  ap (ap (ap (ap (ap (ap (ap (ap (ap (ap (ap (ap (inr mkFoodInput)
    (string_ "foodName" (fields !! "foodName"%string)))
    (optional_nullable (string_ "brand") (fields !! "brand"%string)))
    (string_ "servingSize" (fields !! "servingSize"%string)))
    (string_ "servingUnit" (fields !! "servingUnit"%string)))
    (number_positive "quantity" None (fields !! "quantity"%string)))
    (number_ "calories" (fields !! "calories"%string)))
    (number_ "protein" (fields !! "protein"%string)))
    (number_ "carbs" (fields !! "carbs"%string)))
    (number_ "fats" (fields !! "fats"%string)))
    (optional_nullable (number_ "fiber") (fields !! "fiber"%string)))
    (optional_nullable (number_ "sugar") (fields !! "sugar"%string)))
    (optional_nullable (number_ "sodium") (fields !! "sodium"%string)).

Definition foodEntrySchema : Body -> Parsed FoodInput := object foodEntryShape.

(** [prisma.meal.findFirst({ where: { id: mealId, userId } })] *)
Definition findMeal (db : Db.t) (mealId userId : string) : option Meal :=
  match meals db !! mealId with
  | Some m => if decide (meal_userId m = userId) then Some m else None
  | None => None
  end.

(** [prisma.meal.update] with [{ increment: ... }] on the four counters. *)
Definition increment (m : Meal) (calories protein carbs fats : R) : Meal :=
  mkMeal (meal_userId m) (meal_date m)
         (totalCalories m + calories) (totalProtein m + protein)
         (totalCarbs m + carbs) (totalFats m + fats).

(** [prisma.meal.update] with [{ decrement: ... }] on the four counters. *)
Definition decrement (m : Meal) (calories protein carbs fats : R) : Meal :=
  mkMeal (meal_userId m) (meal_date m)
         (totalCalories m - calories) (totalProtein m - protein)
         (totalCarbs m - carbs) (totalFats m - fats).

Definition withMeals (db : Db.t) (meals' : gmap string Meal) : Db.t :=
  Db.mk (users db) meals' (foodEntries db) (challenges db)
        (participations db) (activities db).

Definition withFoodEntries (db : Db.t) (entries' : gmap string FoodEntry) : Db.t :=
  Db.mk (users db) (meals db) entries' (challenges db)
        (participations db) (activities db).

Record Created := mkCreated {
  updatedMeal  : Meal;
  foodEntryId  : string;
  foodEntry    : FoodEntry
}.

(** [POST]: add a food entry to the meal [mealId] of the route.  [newId] is
    the [cuid()] of the new row.  Any exception that is no [ZodError] is
    answered with status 500. *)
Definition POST (db : Db.t) (session : Session) (mealId : string) (body : Body)
    (newId : string) : Response Created * Db.t :=
  match Js.truthy_str (session ≫= su_id) with
  | None => (Failure 401 (Custom "Unauthorized"), db)
  | Some userId =>
      match findMeal db mealId userId with
      | None => (Failure 404 (Custom "Meal not found"), db)
      | Some _ =>
          match body with
          | InvalidJson => (Failure 500 (Custom "Failed to add food"), db)
          | _ =>
              match foodEntrySchema body with
              | inl [] => (NoResponse, db)
              | inl (first :: _) => (Failure 400 (message first), db)
              | inr foodData =>
                  match foodEntries db !! newId with
                  | Some _ => (Failure 500 (Custom "Failed to add food"), db)
                  | None =>
                      let foodEntry :=
                        mkFoodEntry mealId (in_foodName foodData)
                                    (in_quantity foodData) (in_calories foodData)
                                    (in_protein foodData) (in_carbs foodData)
                                    (in_fats foodData) in
                      let db1 := withFoodEntries db (<[newId := foodEntry]> (foodEntries db)) in
                      match meals db1 !! mealId with
                      | None => (Failure 500 (Custom "Failed to add food"), db1)
                      | Some m =>
                          let updatedMeal :=
                            increment m
                              (in_calories foodData * in_quantity foodData)
                              (in_protein foodData * in_quantity foodData)
                              (in_carbs foodData * in_quantity foodData)
                              (in_fats foodData * in_quantity foodData) in
                          (Success 201 (mkCreated updatedMeal newId foodEntry),
                           withMeals db1 (<[mealId := updatedMeal]> (meals db1)))
                      end
                  end
              end
          end
      end
  end.

(** [DELETE]: remove the food entry [?foodEntryId=...]; the counters of the
    meal [mealId] of the route are decremented. *)
Definition DELETE (db : Db.t) (session : Session) (mealId : string)
    (foodEntryId : option string) : Response Meal * Db.t :=
  match Js.truthy_str (session ≫= su_id) with
  | None => (Failure 401 (Custom "Unauthorized"), db)
  | Some userId =>
      match Js.truthy_str foodEntryId with
      | None => (Failure 400 (Custom "foodEntryId is required"), db)
      | Some foodEntryId =>
          match foodEntries db !! foodEntryId with
          | None => (Failure 404 (Custom "Food entry not found"), db)
          | Some foodEntry =>
              match meals db !! fe_mealId foodEntry with
              | None => (Failure 500 (Custom "Failed to delete food"), db)
              | Some owner =>
                  if decide (meal_userId owner = userId) then
                    let db1 := withFoodEntries db (delete foodEntryId (foodEntries db)) in
                    match meals db1 !! mealId with
                    | None => (Failure 500 (Custom "Failed to delete food"), db1)
                    | Some m =>
                        let updatedMeal :=
                          decrement m
                            (calories foodEntry * quantity foodEntry)
                            (protein foodEntry * quantity foodEntry)
                            (carbs foodEntry * quantity foodEntry)
                            (fats foodEntry * quantity foodEntry) in
                        (Success 200 updatedMeal,
                         withMeals db1 (<[mealId := updatedMeal]> (meals db1)))
                    end
                  else (Failure 403 (Custom "Unauthorized"), db)
              end
          end
      end
  end.

End FoodsRoute.

(** ** Sample data *)

Module Examples.
Import Db RecordActivity.

(** A fix on the Greenwich meridian at the given latitude, no altitude. *)
Definition fixAt (latitude : R) : GeolocationPosition :=
  mkGeolocationPosition (mkCoordinates latitude 0 None) 0.

(** A fix at the origin with the given altitude reading. *)
Definition fixWithAltitude (altitude : R) : GeolocationPosition :=
  mkGeolocationPosition (mkCoordinates 0 0 (Some altitude)) 0.

(** A database with one distance challenge joined by two users, one of
    whom has logged a 5 km activity, and one challenge nobody has joined. *)
Definition runners : Challenge :=
  mkChallenge "u1" "Run 100 km" None Db.distance 100 0 1000 true.

Definition lonely : Challenge :=
  mkChallenge "u1" "Nobody here" None workout_count 10 0 1000 true.

Definition sampleDb : Db.t :=
  Db.mk [mkUser "u1" "ann@example.org"; mkUser "u2" "bob@example.org"]
        ∅ ∅
        (<["c1"%string := runners]> (<["c2"%string := lonely]> ∅))
        [mkParticipation "c1" "u1" 10; mkParticipation "c1" "u2" 20]
        [mkActivity "u1" (Some 5) 15].

Definition ann : Http.Session :=
  Some (Http.mkSessionUser (Some "u1"%string) (Some "ann@example.org"%string)).

(** [new Date(s)] for the sample requests: every string is a valid date. *)
Definition anyDate (s : string) : option Z := Some 0%Z.

(** A challenge request whose only defect is the goal value -5. *)
Definition badChallenge : gmap string Zod.json :=
  <["name"%string := Zod.JString "Run"]>
  (<["challengeType"%string := Zod.JString "distance"]>
  (<["goalValue"%string := Zod.JNumber (-5)]>
  (<["startDate"%string := Zod.JString "2025-01-01"]>
  (<["endDate"%string := Zod.JString "2025-02-01"]> ∅)))).

(** A food request with the given quantity, 100 calories per unit. *)
Definition foodRequest (quantity : R) : gmap string Zod.json :=
  <["foodName"%string := Zod.JString "Oats"]>
  (<["servingSize"%string := Zod.JString "40"]>
  (<["servingUnit"%string := Zod.JString "g"]>
  (<["quantity"%string := Zod.JNumber quantity]>
  (<["calories"%string := Zod.JNumber 100]>
  (<["protein"%string := Zod.JNumber 5]>
  (<["carbs"%string := Zod.JNumber 27]>
  (<["fats"%string := Zod.JNumber 3]> ∅))))))).

Definition oats (quantity : R) : FoodsRoute.FoodInput :=
  FoodsRoute.mkFoodInput "Oats" None "40" "g" quantity 100 5 27 3 None None None.

Definition breakfast : Meal := mkMeal "u1" 0 250 10 30 8.

Definition lunch : Meal := mkMeal "u1" 0 600 30 70 20.

(** A database with two meals of user [u1] and no food entry. *)
Definition twoMeals : Db.t :=
  Db.mk [mkUser "u1" "ann@example.org"]
        (<["m1"%string := breakfast]> (<["m2"%string := lunch]> ∅)) ∅ ∅ [] [].

(** A database with one meal of user [u1] and no food entry. *)
Definition kitchen : Db.t :=
  Db.mk [mkUser "u1" "ann@example.org"] (<["m1"%string := breakfast]> ∅) ∅ ∅ [] [].

End Examples.

(** ** The record-activity page: display and controls *)

Module ActivityPage.
Import RecordActivity.

(** [s.padStart(2, '0')] *)
Definition padStart2 (s : string) : string :=
  match String.length s with
  | 0%nat => "00" +:+ s
  | 1%nat => "0" +:+ s
  | _ => s
  end.

(** One field of the clock. *)
Definition twoDigits (n : nat) : string := padStart2 (pretty n).

(** [formatDuration]: [HH:MM:SS] from a number of seconds.  The argument
    is the [duration] counter, a natural number, on which [Math.floor(x / n)]
    and [x % n] are the quotient and the remainder. *)
Definition formatDuration (seconds : nat) : string :=
  let hours := (seconds / 3600)%nat in
  let minutes := ((seconds mod 3600) / 60)%nat in
  let secs := (seconds mod 60)%nat in
  twoDigits hours +:+ ":" +:+ twoDigits minutes +:+ ":" +:+ twoDigits secs.

(** The state of the page: the React state read by the metrics, the two
    flags, and the two handles kept in refs.  [watching] says that
    [watchIdRef.current] names a live position watch; [intervals] counts the
    running [setInterval] timers and [intervalLive] says that
    [intervalRef.current] names one of them. *)
Record Page := mkPage {
  recorder       : Recorder;
  isRecording    : bool;
  isPaused       : bool;
  saveDialogOpen : bool;
  watching       : bool;
  intervals      : nat;
  intervalLive   : bool
}.

(** The page as first rendered. *)
Definition initial : Page := mkPage (mkRecorder [] 0 0) false false false false 0 false.

(** [if (intervalRef.current) clearInterval(intervalRef.current)] *)
Definition clearTimer (p : Page) : nat :=
  if intervalLive p then (intervals p - 1)%nat else intervals p.

(** [startRecording] (geolocation supported): the state is reset, a
    position watch and a one-second timer are started. *)
Definition startRecording (p : Page) : Page :=
  mkPage RecordActivity.startRecording true false (saveDialogOpen p)
         true (intervals p + 1) true.

Definition pauseRecording (p : Page) : Page :=
  mkPage (recorder p) (isRecording p) true (saveDialogOpen p)
         (watching p) (clearTimer p) false.

Definition resumeRecording (p : Page) : Page :=
  mkPage (recorder p) (isRecording p) false (saveDialogOpen p)
         (watching p) (intervals p + 1) true.

(** [stopRecording]: the watch and the timer are cleared; the save dialog
    opens when at least one position was recorded. *)
Definition stopRecording (p : Page) : Page :=
  mkPage (recorder p) false false
         (if (0 <? length (positions (recorder p)))%nat then true
          else saveDialogOpen p)
         false (clearTimer p) false.

(** One second passes: every running timer runs [setDuration(d => d + 1)]. *)
Definition second (p : Page) : Page :=
  mkPage (Nat.iter (intervals p) tick (recorder p)) (isRecording p) (isPaused p)
         (saveDialogOpen p) (watching p) (intervals p) (intervalLive p).

(** The device reports a position: the callback runs while the watch lives. *)
Definition fix_ (p : Page) (position : GeolocationPosition) : Page :=
  if watching p
  then mkPage (onPosition (recorder p) position) (isRecording p) (isPaused p)
              (saveDialogOpen p) (watching p) (intervals p) (intervalLive p)
  else p.

(** What can happen to the page. *)
Inductive Event :=
| ClickStart
| ClickPause
| ClickResume
| ClickStop
| Second
| Fix (position : GeolocationPosition).

(** A click only reaches its handler when the button is rendered: Start
    when not recording; while recording, Pause when not paused, Resume when
    paused, and Stop. *)
Definition step (p : Page) (e : Event) : Page :=
  match e with
  | ClickStart => if isRecording p then p else startRecording p
  | ClickPause => if isRecording p && negb (isPaused p) then pauseRecording p else p
  | ClickResume => if isRecording p && isPaused p then resumeRecording p else p
  | ClickStop => if isRecording p then stopRecording p else p
  | Second => second p
  | Fix position => fix_ p position
  end.

Definition run (events : list Event) : Page := fold_left step events initial.

(** What happens during one recording, between Start and Stop. *)
Inductive SessionEvent :=
| Pause
| Resume
| Tick
| Position (position : GeolocationPosition).

Definition event (e : SessionEvent) : Event :=
  match e with
  | Pause => ClickPause
  | Resume => ClickResume
  | Tick => Second
  | Position position => Fix position
  end.

(** The seconds of a session that pass while it is not paused. *)
Fixpoint activeSeconds (paused : bool) (session : list SessionEvent) : nat :=
  match session with
  | [] => 0
  | Pause :: rest => activeSeconds true rest
  | Resume :: rest => activeSeconds false rest
  | Tick :: rest => (if paused then 0 else 1) + activeSeconds paused rest
  | Position _ :: rest => activeSeconds paused rest
  end.

(** The positions the device reported during a session. *)
Fixpoint reported (session : list SessionEvent) : list GeolocationPosition :=
  match session with
  | [] => []
  | Position position :: rest => position :: reported rest
  | _ :: rest => reported rest
  end.

(** The state of the page during a recording: the watch lives, and one
    timer runs exactly when the recording is not paused. *)
Definition live (p : Page) : Prop :=
  isRecording p = true /\ watching p = true /\
  intervals p = (if isPaused p then 0 else 1)%nat /\
  intervalLive p = negb (isPaused p).

End ActivityPage.

(** ** The haversine term *)

Module Geodesy.


End Geodesy.

(** ** The charts route: workouts per week *)

Module ChartsRoute.

(** A row of [Workout] as the route selects it. *)
Record Workout := mkWorkout {
  w_date     : Z;
  w_duration : option R
}.

Section WithCalendar.

(** The key of the week of an instant: [weekStart.setDate(weekStart.getDate()
    - weekStart.getDay())] in local time, then
    [toISOString().split('T')[0]]. *)
Variable weekKey : Z -> string.

(** One turn of [workouts.forEach]:
    [set(weekKey, (get(weekKey) || 0) + 1)]. *)
Definition weekStep (workoutsByWeek : list (string * R)) (workout : Workout)
    : list (string * R) :=
  let key := weekKey (w_date workout) in
  JsMap.set workoutsByWeek key
            (default 0 (Js.truthy (JsMap.get workoutsByWeek key)) + 1).

Definition workoutsByWeek (workouts : list Workout) : list (string * R) :=
  fold_left weekStep workouts [].

(** The workouts of one week. *)
Definition inWeek (key : string) (workouts : list Workout) : list Workout :=
  filter (fun w => weekKey (w_date w) = key) workouts.

End WithCalendar.

End ChartsRoute.

(** ** Rounding, as the insights route and the activity page use it *)

Module InsightsRoute.

(** [Math.round(x)]: the nearest integer, a half rounded up. *)
Definition round (x : R) : Z := Zfloor (x + 1 / 2).

End InsightsRoute.

(** ** [POST /api/meals] and the meal log as a whole *)

Module MealsRoute.
Import Db Http Zod.

Inductive MealType := breakfast | lunch | dinner | snack.

Record MealInput := mkMealInput {
  in_mealType : MealType;
  in_date     : option string
}.

Definition mealTypes : list (string * MealType) :=
  [("breakfast"%string, breakfast); ("lunch"%string, lunch);
   ("dinner"%string, dinner); ("snack"%string, snack)].

Definition mealShape (fields : gmap string json) : Parsed MealInput :=
  ap (ap (inr mkMealInput)
    (enum_ "mealType" mealTypes (fields !! "mealType"%string)))
    (optional (string_ "date") (fields !! "date"%string)).

Definition mealSchema : Body -> Parsed MealInput := object mealShape.

Section WithRuntime.

(** [new Date(s)], [None] for an invalid date. *)
Variable parseDate : string -> option Z.

(** [POST]: create a meal with all four totals at 0.  [date ? new Date(date)
    : new Date()], with [now] the instant of [new Date()] and [newId] the
    [cuid()] of the row; the meal type is validated and stored in a column
    the roll-up does not read. *)
Definition POST (db : Db.t) (session : Session) (body : Body)
    (newId : string) (now : Z) : Response Meal * Db.t :=
  match Js.truthy_str (session ≫= su_id) with
  | None => (Failure 401 (Custom "Unauthorized"), db)
  | Some userId =>
      match body with
      | InvalidJson => (Failure 500 (Custom "Failed to create meal"), db)
      | _ =>
          match mealSchema body with
          | inl [] => (NoResponse, db)
          | inl (first :: _) => (Failure 400 (message first), db)
          | inr data =>
              let mealDate :=
                match Js.truthy_str (in_date data) with
                | Some date => parseDate date
                | None => Some now
                end in
              match mealDate, meals db !! newId with
              | Some mealDate, None =>
                  let created := mkMeal userId mealDate 0 0 0 0 in
                  (Success 201 created,
                   FoodsRoute.withMeals db (<[newId := created]> (meals db)))
              | _, _ => (Failure 500 (Custom "Failed to create meal"), db)
              end
          end
      end
  end.

End WithRuntime.

End MealsRoute.

Module MealLog.
Import Db Http Zod Nutrition.

(** The requests that write to the meal log. *)
Inductive Request :=
| CreateMeal (session : Session) (body : Body) (newId : string) (now : Z)
| AddFood (session : Session) (mealId : string) (body : Body) (newId : string)
| DeleteFood (session : Session) (mealId : string) (foodEntryId : option string).

Section WithRuntime.
Variable parseDate : string -> option Z.

(** The database after a request has been handled. *)
Definition handle (db : Db.t) (request : Request) : Db.t :=
  match request with
  | CreateMeal session body newId now =>
      snd (MealsRoute.POST parseDate db session body newId now)
  | AddFood session mealId body newId =>
      snd (FoodsRoute.POST db session mealId body newId)
  | DeleteFood session mealId foodEntryId =>
      snd (FoodsRoute.DELETE db session mealId foodEntryId)
  end.

(** Whether the request is answered with a success status. *)
Definition isSuccess {A : Type} (response : Response A) : bool :=
  match response with
  | Success _ _ => true
  | _ => false
  end.

Definition succeeded (db : Db.t) (request : Request) : bool :=
  match request with
  | CreateMeal session body newId now =>
      isSuccess (fst (MealsRoute.POST parseDate db session body newId now))
  | AddFood session mealId body newId =>
      isSuccess (fst (FoodsRoute.POST db session mealId body newId))
  | DeleteFood session mealId foodEntryId =>
      isSuccess (fst (FoodsRoute.DELETE db session mealId foodEntryId))
  end.

End WithRuntime.


(** Every food entry belongs to a meal that exists, and has a positive
    quantity. *)
Definition integral (db : Db.t) : Prop :=
  forall id e, foodEntries db !! id = Some e ->
               is_Some (meals db !! fe_mealId e) /\ 0 < quantity e.


(** A delete request names, in its route, the meal of the entry it
    deletes. *)
Definition onOwnRoute (db : Db.t) (request : Request) : Prop :=
  match request with
  | DeleteFood _ mealId (Some foodEntryId) =>
      forall e, foodEntries db !! foodEntryId = Some e -> fe_mealId e = mealId
  | _ => True
  end.

(** The user a request is made for: [session.user.id], when truthy. *)
Definition caller (request : Request) : option string :=
  match request with
  | CreateMeal session _ _ _ | AddFood session _ _ _ | DeleteFood session _ _ =>
      Js.truthy_str (session ≫= su_id)
  end.

(** The meal [mealId] exists and belongs to [userId]. *)
Definition ownedBy (db : Db.t) (userId mealId : string) : Prop :=
  exists m, meals db !! mealId = Some m /\ meal_userId m = userId.

End MealLog.

(** ** [POST] and [DELETE /api/challenges/[id]/join] *)

Module JoinRoute.
Import Db Http Zod.

(** [prisma.challengeParticipation.findUnique({ where: { challengeId_userId } })] *)
Definition findParticipation (db : Db.t) (challengeId userId : string)
    : option ChallengeParticipation :=
  find (fun p => bool_decide (cp_challengeId p = challengeId /\ cp_userId p = userId))
       (participations db).

Definition withParticipations (db : Db.t) (rows : list ChallengeParticipation) : Db.t :=
  Db.mk (users db) (meals db) (foodEntries db) (challenges db) rows (activities db).

(** [POST]: join a challenge.  [now] is the instant of [new Date()], also
    taken for the [joinedAt] the database fills in. *)
Definition POST (db : Db.t) (session : Session) (challengeId : string) (now : Z)
    : Response string * Db.t :=
  match Js.truthy_str (session ≫= su_email) with
  | None => (Failure 401 (Custom "Unauthorized"), db)
  | Some email =>
      match LeaderboardRoute.findUser db email with
      | None => (Failure 401 (Custom "User not found"), db)
      | Some user =>
          match challenges db !! challengeId with
          | None => (Failure 404 (Custom "Challenge not found"), db)
          | Some challenge =>
              if (endDate challenge <? now)%Z
              then (Failure 400 (Custom "Challenge has expired"), db)
              else
                match findParticipation db challengeId (user_id user) with
                | Some _ =>
                    (Failure 400 (Custom "Already participating in this challenge"), db)
                | None =>
                    (Success 200 "Joined challenge successfully"%string,
                     withParticipations db
                       (participations db
                        ++ [mkParticipation challengeId (user_id user) now]))
                end
          end
      end
  end.

(** [DELETE]: leave a challenge.  [prisma.delete] on a row that does not
    exist raises, which the handler answers with status 500. *)
Definition DELETE (db : Db.t) (session : Session) (challengeId : string)
    : Response string * Db.t :=
  match Js.truthy_str (session ≫= su_email) with
  | None => (Failure 401 (Custom "Unauthorized"), db)
  | Some email =>
      match LeaderboardRoute.findUser db email with
      | None => (Failure 401 (Custom "User not found"), db)
      | Some user =>
          match findParticipation db challengeId (user_id user) with
          | None => (Failure 500 (Custom "Failed to leave challenge"), db)
          | Some _ =>
              (Success 200 "Left challenge successfully"%string,
               withParticipations db
                 (filter (fun p => ~ (cp_challengeId p = challengeId
                                      /\ cp_userId p = user_id user))
                         (participations db)))
          end
      end
  end.

(** The pair a participation is unique by. *)
Definition key (p : ChallengeParticipation) : string * string :=
  (cp_challengeId p, cp_userId p).

(** The state the routes are meant to keep: no user takes part twice in a
    challenge, and every participation is in a challenge that exists. *)
Definition unique (db : Db.t) : Prop :=
  List.NoDup (map key (participations db)) /\
  forall p, In p (participations db) -> is_Some (challenges db !! cp_challengeId p).

(** The requests that write participations. *)
Inductive Request :=
| Create (session : Session) (body : Body) (newId : string) (now : Z)
| Join (session : Session) (challengeId : string) (now : Z)
| Leave (session : Session) (challengeId : string).

Section WithRuntime.
Variable parseDate : string -> option Z.

Definition handle (db : Db.t) (request : Request) : Db.t :=
  match request with
  | Create session body newId now =>
      snd (ChallengesRoute.POST parseDate db session body newId now)
  | Join session challengeId now => snd (POST db session challengeId now)
  | Leave session challengeId => snd (DELETE db session challengeId)
  end.

End WithRuntime.

End JoinRoute.
(** ** [GET /api/challenges] *)

Module ChallengesList.
Import Db Http Zod.

(** [participants: { some: { userId } }] for the challenge [challengeId]. *)
Definition participates (db : Db.t) (userId challengeId : string) : Prop :=
  Exists (fun p => cp_challengeId p = challengeId /\ cp_userId p = userId)
         (participations db).

(** The [where] of the second query: created by the user or joined by the
    user. *)
Definition mine (db : Db.t) (userId : string) : gmap string Challenge :=
  filter (fun row => ch_creatorId row.2 = userId \/ participates db userId row.1)
         (challenges db).

(** The handler.  The payload is the rows of the response by id; their
    order ([createdAt] descending) and the relations included with each row
    are left out.  [type] is [searchParams.get('type')]; [now] is the instant
    of the [new Date()] of the first query, and [clock id] the instant of the
    [new Date()] the [filter] callback reads for the row [id]. *)
Definition GET (db : Db.t) (session : Session) (type : option string)
    (now : Z) (clock : string -> Z) : Response (gmap string Challenge) :=
  match Js.truthy_str (session ≫= su_id) with
  | None => Failure 401 (Custom "Unauthorized")
  | Some userId =>
      if decide (type = Some "public"%string) then
        Success 200
          (filter (fun row => isPublic row.2 = true /\ (now <= endDate row.2)%Z)
                  (challenges db))
      else if decide (type = Some "active"%string) then
        Success 200
          (filter (fun row => (clock row.1 <= endDate row.2)%Z) (mine db userId))
      else if decide (type = Some "completed"%string) then
        Success 200
          (filter (fun row => (endDate row.2 < clock row.1)%Z) (mine db userId))
      else Success 200 (mine db userId)
  end.

(** The challenge [id] is a row of the response. *)
Definition listed (db : Db.t) (session : Session) (type : option string)
    (now : Z) (clock : string -> Z) (id : string) : Prop :=
  exists rows, GET db session type now clock = Success 200 rows /\ is_Some (rows !! id).

(** The session carries the id of the user its e-mail address belongs to. *)
Definition signedIn (db : Db.t) (session : Session) (user : User) : Prop :=
  exists email,
    Js.truthy_str (session ≫= su_email) = Some email /\
    LeaderboardRoute.findUser db email = Some user /\
    Js.truthy_str (session ≫= su_id) = Some (user_id user).

End ChallengesList.
(** ** The shape the day-grouping loops share *)

Module Grouping.

Section WithStep.
Context {A V : Type}.

(** The key of a record, the value a new bucket starts from, and what a
    record adds to the bucket of its key. *)
Variable key : A -> string.
Variable init : string -> V.
Variable upd : V -> A -> V.

(** One turn of a loop that reads the bucket of the record's key, or a
    new one, and writes back the updated bucket. *)
Definition step (buckets : list (string * V)) (x : A) : list (string * V) :=
  JsMap.set buckets (key x) (upd (default (init (key x)) (JsMap.get buckets (key x))) x).


End WithStep.

End Grouping.

(** ** The activity page: [formatPace] *)

Module ActivityDetail.

(** The two [const]s of [formatPace]. *)
Definition paceMinutes (paceMinPerKm : R) : Z := Zfloor paceMinPerKm.

Definition paceSeconds (paceMinPerKm : R) : Z :=
  InsightsRoute.round ((paceMinPerKm - IZR (paceMinutes paceMinPerKm)) * 60).

(** [`${minutes}:${seconds.toString().padStart(2, '0')}/km`] *)
Definition formatPace (paceMinPerKm : R) : string :=
  pretty (paceMinutes paceMinPerKm) +:+ ":"
  +:+ ActivityPage.padStart2 (pretty (paceSeconds paceMinPerKm)) +:+ "/km".

End ActivityDetail.

(** ** The challenge page: the days left *)

Module ChallengePage.
Import Db.

(** Milliseconds in a day, [1000 * 60 * 60 * 24]. *)
Definition day : Z := 1000 * 60 * 60 * 24.

(** [daysRemaining]; [now] is the instant of its [new Date()]. *)
Definition daysRemaining (challenge : option Challenge) (now : Z) : Z :=
  match challenge with
  | Some c => Z.max 0 (Zceil (IZR (endDate c - now) / IZR day))
  | None => 0
  end.

End ChallengePage.
(** ** The aggregations on IEEE 754 doubles *)

Module Binary64.
Import PrimFloat.
#[local] Open Scope float_scope.

(** In this module a [number] is a [float], the binary64 numbers of the
    kernel: [x + y], [x * y] and [x / y] are the correctly rounded
    operations, with the infinities and [NaN], as in JavaScript. *)

(** A row of [FoodEntry] (the columns the roll-up reads). *)
Record FoodEntry := mkFoodEntry {
  foodName : string;
  quantity : float;
  calories : float;
  protein  : float;
  carbs    : float;
  fats     : float
}.

(** A row of [Meal] fetched with [include: { foodEntries: true }]. *)
Record Meal := mkMeal {
  date          : Z;
  totalCalories : float;
  totalProtein  : float;
  totalCarbs    : float;
  totalFats     : float;
  foodEntries   : list FoodEntry
}.

(** The accumulator object [{ calories, protein, carbs, fats }]. *)
Record Macros := mkMacros {
  m_calories : float;
  m_protein  : float;
  m_carbs    : float;
  m_fats     : float
}.

Definition zeroMacros : Macros := mkMacros 0 0 0 0.

Definition addMacros (a b : Macros) : Macros :=
  mkMacros (m_calories a + m_calories b) (m_protein a + m_protein b)
           (m_carbs a + m_carbs b) (m_fats a + m_fats b).

(** The reducer of [meal.foodEntries.reduce(...)]. *)
Definition addFood (acc : Macros) (food : FoodEntry) : Macros :=
  mkMacros (m_calories acc + calories food * quantity food)
           (m_protein acc + protein food * quantity food)
           (m_carbs acc + carbs food * quantity food)
           (m_fats acc + fats food * quantity food).

Definition mealTotals (m : Meal) : Macros :=
  fold_left addFood (foodEntries m) zeroMacros.

(** [Math.min(a, b)]: [NaN] when either is, and of two zeros the negative
    one. *)
Definition min (a b : float) : float :=
  if is_nan a || is_nan b then nan
  else if (a <? b) then a
  else if (b <? a) then b
  else if get_sign a then a else b.

(** [!x] on a number: [0], [-0] and [NaN] are falsy. *)
Definition falsy (x : float) : bool := (x =? 0) || is_nan x.

(** [x || d] for a nullable number [x]. *)
Definition orElse (x : option float) (d : float) : float :=
  match x with
  | Some v => if falsy v then d else v
  | None => d
  end.


Section WithClock.

(** [date.toISOString().split('T')[0]]: the UTC calendar day of an instant
    (milliseconds since the epoch) as [YYYY-MM-DD]. *)
Variable isoDate : Z -> string.


(** *** Charts route: [nutritionByDate] *)

(** One turn of [meals.forEach]. [get(dateKey) || zero]: a stored object
    is always truthy. *)
Definition nutritionStep (nutritionByDate : list (string * Macros)) (m : Meal)
    : list (string * Macros) :=
  let dateKey := isoDate (date m) in
  let existing := default zeroMacros (JsMap.get nutritionByDate dateKey) in
  JsMap.set nutritionByDate dateKey (addMacros existing (mealTotals m)).

Definition nutritionByDate (mealRows : list Meal) : list (string * Macros) :=
  fold_left nutritionStep mealRows [].

(** *** Insights route: [dailyData] *)

Record DayData := mkDayData {
  dd_date          : string;
  dd_totalCalories : float;
  dd_totalProtein  : float;
  dd_totalCarbs    : float;
  dd_totalFats     : float;
  dd_meals         : list string
}.

Definition emptyDay (dateKey : string) : DayData :=
  mkDayData dateKey 0 0 0 0 [].

(** [dayData.totalCalories += meal.totalCalories] and the three others,
    then [dayData.meals.push(...names)]. *)
Definition addMeal (dayData : DayData) (m : Meal) : DayData :=
  mkDayData (dd_date dayData)
            (dd_totalCalories dayData + totalCalories m)
            (dd_totalProtein dayData + totalProtein m)
            (dd_totalCarbs dayData + totalCarbs m)
            (dd_totalFats dayData + totalFats m)
            (dd_meals dayData ++ map foodName (foodEntries m)).

(** One turn of [meals.forEach].  [dailyData.get(dateKey)!] is dereferenced:
    [None] is the [TypeError] an absent key would raise.  The object in the
    map is mutated in place, which is a [set] at its own key. *)
Definition dailyStep (dailyData : option (list (string * DayData))) (m : Meal)
    : option (list (string * DayData)) :=
  match dailyData with
  | None => None
  | Some dailyData =>
      let dateKey := isoDate (date m) in
      let dailyData :=
        if negb (JsMap.has dailyData dateKey)
        then JsMap.set dailyData dateKey (emptyDay dateKey)
        else dailyData in
      match JsMap.get dailyData dateKey with
      | None => None
      | Some dayData => Some (JsMap.set dailyData dateKey (addMeal dayData m))
      end
  end.

Definition dailyData (mealRows : list Meal) : option (list (string * DayData)) :=
  fold_left dailyStep mealRows (Some []).







End WithClock.


(** *** The dashboard page: the progress bars *)

(** The columns of the [User] row the page selects, [select: { calorieGoal:
    true, proteinGoal: true }] ([null] when unset). *)
Record Profile := mkProfile {
  user_calorieGoal : option float;
  user_proteinGoal : option float
}.

(** [calorieGoal: user?.calorieGoal || 2000] and [proteinGoal:
    user?.proteinGoal || 400], for the row [findUnique] returned, if any. *)
Definition calorieGoal (user : option Profile) : float :=
  orElse (user ≫= user_calorieGoal) 2000.

Definition proteinGoal (user : option Profile) : float :=
  orElse (user ≫= user_proteinGoal) 400.

(** [Math.min(100, (value / goal) * 100)], the width of a progress bar. *)
Definition percent (value goal : float) : float :=
  min 100 (value / goal * 100).

Definition caloriePercent (todayTotals : Macros) (user : option Profile) : float :=
  percent (m_calories todayTotals) (calorieGoal user).

Definition proteinPercent (todayTotals : Macros) (user : option Profile) : float :=
  percent (m_protein todayTotals) (proteinGoal user).

End Binary64.


(** ** More sample data *)

Module Samples.
Import Db.


(** A database with one meal without food entries, its totals at 0. *)
Definition emptyMeal : Meal := mkMeal "u1" 0 0 0 0 0.

Definition kitchen0 : Db.t :=
  Db.mk [mkUser "u1" "ann@example.org"] (<["m1"%string := emptyMeal]> ∅) ∅ ∅ [] [].

(** A valid challenge request. *)
Definition goodChallenge : gmap string Zod.json :=
  <["name"%string := Zod.JString "Run"]>
  (<["challengeType"%string := Zod.JString "distance"]>
  (<["goalValue"%string := Zod.JNumber 100]>
  (<["startDate"%string := Zod.JString "2025-01-01"]>
  (<["endDate"%string := Zod.JString "2025-02-01"]> ∅)))).

(** A valid request to create a meal, without a date. *)
Definition breakfastRequest : gmap string Zod.json :=
  <["mealType"%string := Zod.JString "breakfast"]> ∅.

(** The session of the second user of [Examples.sampleDb]. *)
Definition bob : Http.Session :=
  Some (Http.mkSessionUser (Some "u2"%string) (Some "bob@example.org"%string)).

(** A database with one meal that holds one food entry, two servings of
    oats, and whose counters are the totals of that entry. *)
Definition oatMeal : Meal := mkMeal "u1" 0 200 10 54 6.

Definition pantry : Db.t :=
  Db.mk [mkUser "u1" "ann@example.org"]
        (<["m1"%string := oatMeal]> ∅)
        (<["f1"%string := mkFoodEntry "m1" "Oats" 2 100 5 27 3]> ∅)
        ∅ [] [].

End Samples.

Module Samples64.
Import PrimFloat Binary64.
#[local] Set Warnings "-inexact-float".


End Samples64.

(** * Properties *)

(** ** JavaScript numbers and maps *)

Lemma gt_true (a b : R) : Js.gt a b = true <-> b < a.
Proof.
  unfold Js.gt. destruct (Rlt_dec b a); split; intros; try lra; congruence.
Qed.

Lemma gt_false (a b : R) : Js.gt a b = false <-> a <= b.
Proof.
  unfold Js.gt. destruct (Rlt_dec b a); split; intros; try lra; congruence.
Qed.

Lemma falsy_true (x : R) : Js.falsy x = true <-> x = 0.
Proof.
  unfold Js.falsy. destruct (Req_dec_T x 0); split; intros; congruence.
Qed.

Lemma falsy_false (x : R) : Js.falsy x = false <-> x <> 0.
Proof.
  unfold Js.falsy. destruct (Req_dec_T x 0); split; intros; congruence.
Qed.

Lemma truthy_nonzero (v : R) : v <> 0 -> Js.truthy (Some v) = Some v.
Proof. intros H. simpl. now rewrite (proj2 (falsy_false v) H). Qed.

Lemma truthy_zero : Js.truthy (Some 0) = None.
Proof. simpl. now rewrite (proj2 (falsy_true 0) eq_refl). Qed.

Lemma fold_left_Rplus (xs : list R) (a : R) :
  fold_left Rplus xs a = a + fold_left Rplus xs 0.
Proof.
  revert a. induction xs as [|x xs IH]; intros a; simpl.
  - lra.
  - rewrite IH, (IH (0 + x)). lra.
Qed.

Lemma sum_nil : Js.sum [] = 0.
Proof. reflexivity. Qed.

Lemma sum_cons (x : R) (xs : list R) : Js.sum (x :: xs) = x + Js.sum xs.
Proof. unfold Js.sum. simpl. rewrite fold_left_Rplus. lra. Qed.

Lemma sum_app (xs ys : list R) : Js.sum (xs ++ ys) = Js.sum xs + Js.sum ys.
Proof.
  induction xs as [|x xs IH]; simpl.
  - rewrite sum_nil. lra.
  - rewrite !sum_cons, IH. lra.
Qed.

Section MapSums.
Context {V : Type}.
Variable f : V -> R.

Lemma sumOver_cons (k : string) (v : V) (m : list (string * V)) :
  JsMap.sumOver f ((k, v) :: m) = f v + JsMap.sumOver f m.
Proof. unfold JsMap.sumOver. simpl. apply sum_cons. Qed.

(** A [set] replaces the contribution of the old value, if any, by the
    contribution of the new one. *)
Lemma sumOver_set (m : list (string * V)) (k : string) (v : V) :
  JsMap.sumOver f (JsMap.set m k v) = JsMap.sumOver f m - from_option f 0 (JsMap.get m k) + f v.
Proof.
  induction m as [|[k' v'] m IH]; simpl.
  - rewrite sumOver_cons. unfold JsMap.sumOver. simpl. rewrite sum_nil. lra.
  - destruct (decide (k' = k)); simpl.
    + rewrite !sumOver_cons. lra.
    + rewrite !sumOver_cons, IH. lra.
Qed.

Lemma get_set_eq (m : list (string * V)) (k : string) (v : V) :
  JsMap.get (JsMap.set m k v) k = Some v.
Proof.
  induction m as [|[k' v'] m IH]; simpl.
  - now rewrite decide_True.
  - destruct (decide (k' = k)) as [->|Hne]; simpl.
    + now rewrite decide_True.
    + now rewrite decide_False.
Qed.

Lemma get_set_ne (m : list (string * V)) (k k' : string) (v : V) :
  k <> k' -> JsMap.get (JsMap.set m k v) k' = JsMap.get m k'.
Proof.
  intros Hne. induction m as [|[k0 v0] m IH]; simpl.
  - now rewrite decide_False.
  - destruct (decide (k0 = k)) as [->|Hne0]; simpl.
    + now rewrite !decide_False.
    + destruct (decide (k0 = k')); auto.
Qed.

End MapSums.

(** ** Nutrition roll-up *)

Section NutritionFacts.
Import Db Nutrition.

Lemma weighted_cons (perUnit : FoodEntry -> R) food foodEntries :
  weighted perUnit (food :: foodEntries)
  = quantity food * perUnit food + weighted perUnit foodEntries.
Proof. unfold weighted. simpl. apply sum_cons. Qed.

Lemma fold_addFood (foodEntries : list FoodEntry) (acc : Macros) :
  fold_left addFood foodEntries acc =
  mkMacros (m_calories acc + weighted calories foodEntries)
           (m_protein acc + weighted protein foodEntries)
           (m_carbs acc + weighted carbs foodEntries)
           (m_fats acc + weighted fats foodEntries).
Proof.
  revert acc. induction foodEntries as [|food rest IH]; intros acc.
  - destruct acc; simpl. unfold weighted; simpl. rewrite sum_nil.
    f_equal; lra.
  - simpl. rewrite IH, !weighted_cons. simpl. f_equal; lra.
Qed.

Lemma mealTotals_weighted (foodEntries : list FoodEntry) :
  mealTotals foodEntries =
  mkMacros (weighted calories foodEntries) (weighted protein foodEntries)
           (weighted carbs foodEntries) (weighted fats foodEntries).
Proof.
  unfold mealTotals. rewrite fold_addFood. simpl. f_equal; lra.
Qed.

Lemma sumMacros_cons (x : Macros) (xs : list Macros) :
  sumMacros (x :: xs) = addMacros x (sumMacros xs).
Proof. unfold sumMacros, addMacros. simpl. now rewrite !sum_cons. Qed.

Lemma fold_addMacros {A : Type} (g : A -> Macros) (xs : list A) (acc : Macros) :
  fold_left (fun acc x => addMacros acc (g x)) xs acc
  = addMacros acc (sumMacros (map g xs)).
Proof.
  revert acc. induction xs as [|x xs IH]; intros acc; simpl.
  - destruct acc. unfold addMacros, sumMacros. simpl. rewrite sum_nil.
    f_equal; lra.
  - rewrite IH, sumMacros_cons. destruct acc. unfold addMacros. simpl.
    f_equal; lra.
Qed.

(** C1. The totals of a meal are, field by field, the sum over its food
    entries of quantity times the per-unit value; the totals of a day are
    the sums of the totals of its meals; and the meal with the entries
    (quantity 2, 100 calories) and (quantity 1, 50 calories) has 250
    calories. *)
Theorem mealTotals_sum_of_quantity_times_unit :
  (forall foodEntries : list FoodEntry,
      m_calories (mealTotals foodEntries) = weighted calories foodEntries /\
      m_protein (mealTotals foodEntries) = weighted protein foodEntries /\
      m_carbs (mealTotals foodEntries) = weighted carbs foodEntries /\
      m_fats (mealTotals foodEntries) = weighted fats foodEntries) /\
  (forall todayMeals : list MealWithEntries,
      todayTotals todayMeals
      = sumMacros (map (fun m => mealTotals (entries m)) todayMeals)) /\
  (forall (mealId name1 name2 : string) (p1 c1 f1 p2 c2 f2 : R),
      m_calories (mealTotals [mkFoodEntry mealId name1 2 100 p1 c1 f1;
                              mkFoodEntry mealId name2 1 50 p2 c2 f2]) = 250).
Proof.
  split; [|split].
  - intros foodEntries. rewrite mealTotals_weighted. simpl. auto.
  - intros todayMeals. unfold todayTotals. rewrite fold_addMacros.
    destruct (sumMacros _). unfold addMacros. simpl. f_equal; lra.
  - intros. rewrite mealTotals_weighted. simpl.
    rewrite !weighted_cons. unfold weighted. simpl. rewrite sum_nil. lra.
Qed.

End NutritionFacts.

(** ** GPS activity metrics *)

Section RecordActivityFacts.
Import RecordActivity Examples.

Lemma atan2_pos (y x : R) : 0 < x -> atan2 y x = atan (y / x).
Proof. intros H. unfold atan2. destruct (Rlt_dec 0 x); [reflexivity|lra]. Qed.

Lemma half_angle_bound (d : R) :
  Rabs d < 180 -> - (PI / 2) < d * PI / 180 / 2 < PI / 2.
Proof.
  intros H. apply Rabs_def2 in H. pose proof PI_RGT_0. split; nra.
Qed.

Lemma abs_sin_over_cos (h : R) :
  - (PI / 2) < h < PI / 2 -> Rabs (sin h) / cos h = tan (Rabs h).
Proof.
  intros [Hlo Hhi]. pose proof PI_RGT_0 as Hpi. unfold tan.
  destruct (Rle_dec 0 h) as [Hpos|Hneg].
  - rewrite (Rabs_pos_eq h) by assumption.
    rewrite Rabs_pos_eq; [reflexivity|]. apply sin_ge_0; lra.
  - assert (h < 0) as Hlt by lra.
    rewrite (Rabs_left h) by assumption.
    rewrite sin_neg, cos_neg.
    rewrite Rabs_left; [reflexivity|]. apply sin_lt_0_var; lra.
Qed.

(** Along a meridian the formula is the arc of a circle of radius 6371:
    the angle between the latitudes, in radians, times the radius. *)
Lemma calculateDistance_meridian (lat1 lat2 lon : R) :
  Rabs (lat2 - lat1) < 180 ->
  calculateDistance lat1 lon lat2 lon = 6371 * (Rabs (lat2 - lat1) * PI / 180).
Proof.
  intros Hd. pose proof (half_angle_bound _ Hd) as Hh.
  pose proof PI_RGT_0 as Hpi.
  unfold calculateDistance.
  set (h := (lat2 - lat1) * PI / 180 / 2) in *.
  replace ((lon - lon) * PI / 180 / 2) with 0 by lra.
  rewrite sin_0.
  replace (sin h * sin h + cos (lat1 * PI / 180) * cos (lat2 * PI / 180) * 0 * 0)
    with (Rsqr (sin h)) by (unfold Rsqr; ring).
  replace (1 - Rsqr (sin h)) with (Rsqr (cos h))
    by (pose proof (sin2_cos2 h); lra).
  rewrite !sqrt_Rsqr_abs.
  assert (0 < cos h) as Hcos by (apply cos_gt_0; lra).
  rewrite (Rabs_pos_eq (cos h)) by lra.
  rewrite atan2_pos by assumption.
  rewrite abs_sin_over_cos by assumption.
  rewrite atan_tan.
  - subst h.
    replace ((lat2 - lat1) * PI / 180 / 2) with ((lat2 - lat1) * (PI / 360)) by lra.
    rewrite Rabs_mult, (Rabs_pos_eq (PI / 360)) by lra. lra.
  - split; [pose proof (Rabs_pos h); lra | apply Rabs_def1; lra].
Qed.

Lemma stepDistance_fixAt (a b : R) :
  Rabs (b - a) < 180 ->
  stepDistance (newPos (fixAt a)) (newPos (fixAt b)) = 6371 * (Rabs (b - a) * PI / 180).
Proof. intros H. unfold stepDistance. simpl. now apply calculateDistance_meridian. Qed.

Lemma PI_gt_3 : 3 < PI.
Proof. pose proof PI2_3_2. lra. Qed.

(** Evaluate the step between two sample fixes on the meridian. *)
Ltac meridian_step :=
  rewrite stepDistance_fixAt; rewrite Rabs_pos_eq by lra;
  try (pose proof PI_4; pose proof PI_gt_3; lra).

Lemma contribution_near (p q : Position) :
  stepDistance p q <= 0.005 -> contribution p q = 0.
Proof.
  intros H. unfold contribution. now rewrite (proj2 (gt_false _ _) H).
Qed.

Lemma contribution_far (p q : Position) :
  0.005 < stepDistance p q -> contribution p q = stepDistance p q.
Proof.
  intros H. unfold contribution. now rewrite (proj2 (gt_true _ _) H).
Qed.

Lemma record_snoc (fixes : list GeolocationPosition) (fix_ : GeolocationPosition) :
  record (fixes ++ [fix_]) = onPosition (record fixes) fix_.
Proof. unfold record. now rewrite fold_left_app. Qed.

Lemma record_positions (fixes : list GeolocationPosition) :
  positions (record fixes) = map newPos fixes.
Proof.
  induction fixes as [|fix_ fixes IH] using rev_ind.
  - reflexivity.
  - rewrite record_snoc, map_app. simpl. now rewrite IH.
Qed.

Lemma pathDistance_snoc (path : list Position) (q : Position) :
  pathDistance (path ++ [q])
  = pathDistance path + from_option (fun p => contribution p q) 0 (last path).
Proof.
  induction path as [|p [|p' rest] IH].
  - simpl. lra.
  - simpl. lra.
  - change (pathDistance ((p :: p' :: rest) ++ [q]))
      with (contribution p p' + pathDistance ((p' :: rest) ++ [q])).
    rewrite IH. simpl. lra.
Qed.

Lemma pathDistance_split (before : list Position) (p : Position) (after : list Position) :
  pathDistance (before ++ p :: after)
  = pathDistance (before ++ [p]) + pathDistance (p :: after).
Proof.
  induction before as [|a [|b rest] IH].
  - simpl. lra.
  - simpl. lra.
  - change (pathDistance ((a :: b :: rest) ++ p :: after))
      with (contribution a b + pathDistance ((b :: rest) ++ p :: after)).
    change (pathDistance ((a :: b :: rest) ++ [p]))
      with (contribution a b + pathDistance ((b :: rest) ++ [p])).
    rewrite IH. lra.
Qed.

(** The distance shown after a recording is the accumulation, over the
    consecutive pairs of recorded positions, of the steps longer than
    5 meters. *)
Lemma record_distance (fixes : list GeolocationPosition) :
  distance (record fixes) = pathDistance (map newPos fixes).
Proof.
  induction fixes as [|fix_ fixes IH] using rev_ind.
  - reflexivity.
  - rewrite record_snoc, map_app. simpl map.
    rewrite pathDistance_snoc, <- IH, <- record_positions.
    unfold onPosition. simpl.
    destruct (last (positions (record fixes))) as [lastPos|]; simpl.
    + unfold contribution. destruct (Js.gt _ _); lra.
    + lra.
Qed.



(** C4, refuted as stated.  A fix 1.1 m north of the first fix, inserted
    before a fix one degree further north, shortens the accumulated
    distance: its own step is dropped and the step to the next fix starts
    from the inserted position. *)
Lemma inserting_near_fix_changes_distance :
  stepDistance (newPos (fixAt 0)) (newPos (fixAt (1 / 100000))) < 0.005 /\
  distance (record [fixAt 0; fixAt (1 / 100000); fixAt 1])
  <> distance (record [fixAt 0; fixAt 1]).
Proof.
  pose proof PI_gt_3 as Hlo. pose proof PI_4 as Hhi.
  assert (stepDistance (newPos (fixAt 0)) (newPos (fixAt (1 / 100000)))
          = 6371 * (1 / 100000 * PI / 180)) as Hnear.
  { meridian_step. }
  assert (stepDistance (newPos (fixAt (1 / 100000))) (newPos (fixAt 1))
          = 6371 * ((1 - 1 / 100000) * PI / 180)) as Hrest.
  { meridian_step. }
  assert (stepDistance (newPos (fixAt 0)) (newPos (fixAt 1))
          = 6371 * (1 * PI / 180)) as Hwhole.
  { meridian_step. }
  split; [lra|].
  rewrite !record_distance. cbn [map pathDistance].
  rewrite contribution_near, !contribution_far by lra.
  lra.
Qed.

(** C4, amended.  Inserting a fix whose step from its predecessor is at
    most 5 meters leaves the accumulated distance unchanged when it is
    inserted at the end of the sequence, or when its step to the following
    fix counts the same as the step from its predecessor to that fix. *)
Theorem inserting_near_fix_keeps_distance
    (before : list GeolocationPosition) (p q : GeolocationPosition)
    (after : list GeolocationPosition) :
  stepDistance (newPos p) (newPos q) <= 0.005 ->
  match after with
  | [] => True
  | s :: _ => contribution (newPos q) (newPos s) = contribution (newPos p) (newPos s)
  end ->
  distance (record (before ++ p :: q :: after))
  = distance (record (before ++ p :: after)).
Proof.
  intros Hnear Hnext. rewrite !record_distance, !map_app. cbn [map].
  rewrite (pathDistance_split _ (newPos p) (newPos q :: _)).
  rewrite (pathDistance_split _ (newPos p) (map newPos after)).
  f_equal.
  change (pathDistance (newPos p :: newPos q :: map newPos after))
    with (contribution (newPos p) (newPos q) + pathDistance (newPos q :: map newPos after)).
  rewrite contribution_near by assumption.
  destruct after as [|s rest]; simpl in *; [lra|].
  rewrite Hnext. lra.
Qed.

Lemma inserting_near_fix_keeps_distance_witness :
  distance (record [fixAt 0; fixAt (1 / 100000)]) = distance (record [fixAt 0]) /\
  distance (record [fixAt 0; fixAt 0; fixAt 1]) = distance (record [fixAt 0; fixAt 1]).
Proof.
  pose proof PI_4 as Hhi.
  split.
  - apply (inserting_near_fix_keeps_distance [] (fixAt 0) (fixAt (1 / 100000)) []).
    + meridian_step.
    + exact I.
  - apply (inserting_near_fix_keeps_distance [] (fixAt 0) (fixAt 0) [fixAt 1]).
    + rewrite stepDistance_fixAt; replace (0 - 0) with 0 by lra;
        rewrite Rabs_R0; lra.
    + reflexivity.
Defined.

(** C7. The pace is always a finite number: the quotient
    [(duration / 60) / distance] when the distance is positive, and 0
    otherwise, in particular when the distance is 0; no division by zero is
    ever evaluated. *)
Theorem avgPace_is_finite (duration : nat) (distance : R) :
  avgPace duration distance
  = Js.Finite (if Js.gt distance 0 then INR duration / 60 / distance else 0) /\
  currentPace duration distance = avgPace duration distance.
Proof.
  split; [|reflexivity].
  unfold avgPace.
  destruct (Js.gt distance 0) eqn:Hd.
  - apply gt_true in Hd.
    destruct duration as [|n].
    + simpl. f_equal. unfold Rdiv. ring.
    + change (0 <? S n)%nat with true. cbn [andb].
      unfold Js.div, Js.bind.
      destruct (Req_dec_T 60 0) as [H60|_]; [lra|].
      destruct (Req_dec_T distance 0) as [H0|_]; [lra|]. reflexivity.
  - rewrite andb_false_r. reflexivity.
Qed.

(** *** Elevation gain *)

Lemma elevationGain_from (suffix prefix : list Position) (gain : R) :
  fold_left (gainStep (prefix ++ suffix))
            (combine (seq (length prefix) (length suffix)) suffix) (Some gain)
  = Some (gain + positiveDeltas (usableAltitudes (option_list (last prefix) ++ suffix))).
Proof.
  revert prefix gain. induction suffix as [|pos rest IH]; intros prefix gain.
  - simpl. rewrite app_nil_r. destruct (last prefix); simpl; f_equal; lra.
  - cbn [length seq combine fold_left].
    assert (prefix ++ pos :: rest = (prefix ++ [pos]) ++ rest) as Happ
      by now rewrite <- app_assoc.
    assert (S (length prefix) = length (prefix ++ [pos])) as Hlen
      by (rewrite length_app; simpl; lia).
    destruct prefix as [|b prefix0 _] using rev_ind.
    + exact (IH [pos] gain).
    + assert (gainStep ((prefix0 ++ [b]) ++ pos :: rest) (Some gain)
                       (length (prefix0 ++ [b]), pos)
              = Some (gain + climb (Js.truthy (altitude b)) (Js.truthy (altitude pos))))
        as Hstep.
      { unfold gainStep. rewrite length_app. simpl length.
        replace (length prefix0 + 1 =? 0)%nat with false
          by (symmetry; apply Nat.eqb_neq; lia).
        replace (length prefix0 + 1 - 1)%nat with (length prefix0) by lia.
        rewrite <- app_assoc. simpl app.
        rewrite list_lookup_middle by reflexivity.
        unfold climb.
        destruct (Js.truthy (altitude pos)), (Js.truthy (altitude b));
          try (f_equal; lra).
        destruct (Js.gt _ _); f_equal; lra. }
      rewrite Hstep, Happ, Hlen, IH, !last_snoc. simpl.
      f_equal. lra.
Qed.

(** The reducer never reads an absent element, and its result is the sum
    of the positive consecutive deltas of the altitudes it can use. *)
Lemma elevationGain_usable (positions : list Position) :
  elevationGain positions = Some (positiveDeltas (usableAltitudes positions)).
Proof.
  unfold elevationGain.
  pose proof (elevationGain_from positions [] 0) as H. simpl in H.
  rewrite H. f_equal. lra.
Qed.

Lemma elevationGain_never_throws (positions : list Position) :
  exists gain, elevationGain positions = Some gain.
Proof. eexists. apply elevationGain_usable. Qed.

(** When no recorded altitude is exactly zero, the result is the sum of
    the positive consecutive altitude deltas, a missing altitude on either
    side of a step giving 0. *)
Lemma elevationGain_positive_deltas (positions : list Position) :
  Forall (fun p => altitude p <> Some 0) positions ->
  elevationGain positions = Some (positiveDeltas (map altitude positions)).
Proof.
  intros Hnz. rewrite elevationGain_usable. do 2 f_equal.
  unfold usableAltitudes. apply map_ext_Forall.
  eapply Forall_impl; [exact Hnz|]. intros p Hp. simpl in Hp |- *.
  destruct (altitude p) as [v|]; [|reflexivity].
  apply truthy_nonzero. congruence.
Qed.

(** C8, at a failing input.  Two fixes with the altitude readings 0 and 10
    have one positive altitude delta, 10; the page records the reading 0 as
    a missing altitude and reports an elevation gain of 0.  The reducer
    itself also skips a position whose altitude is 0. *)
Theorem elevationGain_loses_zero_altitude :
  positiveDeltas (map (fun f => coords_altitude (coords f))
                      [fixWithAltitude 0; fixWithAltitude 10]) = 10 /\
  elevationGain (positions (record [fixWithAltitude 0; fixWithAltitude 10])) = Some 0 /\
  elevationGain [mkPosition 0 0 0 (Some 0); mkPosition 0 0 0 (Some 10)] = Some 0.
Proof.
  assert (Js.falsy 0 = true) as Hzero by now apply falsy_true.
  assert (Js.falsy 10 = false) as Hten by (apply falsy_false; lra).
  split; [|split].
  - simpl. unfold climb. rewrite (proj2 (gt_true (10 - 0) 0)) by lra. lra.
  - rewrite record_positions, elevationGain_usable.
    unfold usableAltitudes. simpl. rewrite Hzero, Hten. simpl.
    f_equal. lra.
  - rewrite elevationGain_usable. unfold usableAltitudes. simpl.
    rewrite Hzero, Hten. simpl. f_equal. lra.
Qed.

End RecordActivityFacts.

(** ** Challenge leaderboard *)

Section LeaderboardFacts.
Import Db Http LeaderboardRoute Examples.

Lemma imap_entry_ranks (participants : list ChallengeParticipation) (k : nat) :
  map rank (imap (fun index p => entry (k + index) p) participants)
  = seq (k + 1) (length participants).
Proof.
  revert k. induction participants as [|p rest IH]; intros k; simpl.
  - reflexivity.
  - f_equal; [lia|].
    etransitivity; [|exact (IH (S k))].
    f_equal. apply imap_ext. intros i x _. simpl. f_equal. lia.
Qed.

Lemma imap_entry_users (participants : list ChallengeParticipation) (k : nat) :
  map le_userId (imap (fun index p => entry (k + index) p) participants)
  = map cp_userId participants.
Proof.
  revert k. induction participants as [|p rest IH]; intros k; simpl.
  - reflexivity.
  - f_equal. etransitivity; [|exact (IH (S k))].
    f_equal. apply imap_ext. intros i x _. simpl. f_equal. lia.
Qed.

Lemma imap_entry_placeholder (participants : list ChallengeParticipation) (k : nat) :
  Forall (fun e => progress e = 0 /\ progressPercentage e = 0 /\ isCompleted e = false)
         (imap (fun index p => entry (k + index) p) participants).
Proof.
  revert k. induction participants as [|p rest IH]; intros k; simpl.
  - constructor.
  - constructor; [auto|].
    erewrite imap_ext; [apply (IH (S k))|]. intros i x _. simpl. f_equal. lia.
Qed.

Lemma GET_success (db : Db.t) (session : Session) (challengeId : string)
    (status : nat) (payload : Payload) :
  GET db session challengeId = Success status payload ->
  status = 200%nat /\
  challenges db !! challengeId = Some (challenge payload) /\
  leaderboard payload = imap entry (findParticipants db challengeId).
Proof.
  unfold GET. intros H.
  destruct (Js.truthy_str _); [|discriminate].
  destruct (findUser db _); [|discriminate].
  destruct (challenges db !! challengeId); [|discriminate].
  injection H as <- <-. auto.
Qed.

(** C5. For an authenticated request on an existing challenge with N
    participations, the leaderboard lists the N participants with the ranks
    1, 2, ..., N in this order, so each rank is given exactly once; with no
    participation the response is a success with the empty leaderboard. *)
Theorem leaderboard_ranks_one_to_N (db : Db.t) (session : Session)
    (challengeId email : string) (user : User) (found : Challenge) :
  Js.truthy_str (session ≫= su_email) = Some email ->
  findUser db email = Some user ->
  challenges db !! challengeId = Some found ->
  exists board,
    GET db session challengeId = Success 200 (mkPayload found board) /\
    map le_userId board = map cp_userId (findParticipants db challengeId) /\
    map rank board = seq 1 (length (findParticipants db challengeId)) /\
    NoDup (map rank board) /\
    (findParticipants db challengeId = [] -> board = []).
Proof.
  intros Hsession Huser Hchallenge.
  exists (imap entry (findParticipants db challengeId)).
  unfold GET. rewrite Hsession, Huser, Hchallenge.
  assert (map rank (imap entry (findParticipants db challengeId))
          = seq 1 (length (findParticipants db challengeId))) as Hranks
    by exact (imap_entry_ranks (findParticipants db challengeId) 0).
  assert (map le_userId (imap entry (findParticipants db challengeId))
          = map cp_userId (findParticipants db challengeId)) as Husers
    by exact (imap_entry_users (findParticipants db challengeId) 0).
  repeat split; try assumption.
  - rewrite Hranks. apply NoDup_ListNoDup, List.seq_NoDup.
  - intros ->. reflexivity.
Qed.

Lemma leaderboard_ranks_one_to_N_witness :
  (exists board,
      GET sampleDb ann "c1" = Success 200 (mkPayload runners board) /\
      map le_userId board = ["u1"%string; "u2"%string] /\
      map rank board = [1%nat; 2%nat]) /\
  GET sampleDb ann "c2" = Success 200 (mkPayload lonely []).
Proof.
  split.
  - destruct (leaderboard_ranks_one_to_N sampleDb ann "c1" "ann@example.org"
                (mkUser "u1" "ann@example.org") runners
                eq_refl eq_refl eq_refl)
      as (board & Hget & Husers & Hranks & _ & _).
    exists board. auto.
  - destruct (leaderboard_ranks_one_to_N sampleDb ann "c2" "ann@example.org"
                (mkUser "u1" "ann@example.org") lonely
                eq_refl eq_refl eq_refl)
      as (board & Hget & _ & _ & _ & Hempty).
    rewrite Hget, Hempty; reflexivity.
Defined.

(** C2, refuted as stated.  In a distance challenge a participant with a
    logged activity of 5 km is listed with progress 0, as is the other
    participant. *)
Lemma leaderboard_progress_ignores_history :
  challengeType runners = Db.distance /\
  summedDistance sampleDb "u1" = 5 /\
  exists first second,
    GET sampleDb ann "c1" = Success 200 (mkPayload runners [first; second]) /\
    le_userId first = "u1"%string /\
    progress first = 0 /\
    progress first <> summedDistance sampleDb (le_userId first).
Proof.
  assert (summedDistance sampleDb "u1" = 5) as Hsum.
  { unfold summedDistance. simpl. unfold Js.sum. simpl. lra. }
  split; [reflexivity|]. split; [exact Hsum|].
  eexists _, _. split; [reflexivity|]. simpl.
  split; [reflexivity|]. split; [reflexivity|].
  rewrite Hsum. lra.
Qed.

(** C2, amended.  Every entry of a leaderboard response carries the
    placeholder values: progress 0, progress percentage 0 and not completed,
    whatever the type of the challenge and the history of the user. *)
Theorem leaderboard_progress_is_placeholder (db : Db.t) (session : Session)
    (challengeId : string) (status : nat) (payload : Payload) :
  GET db session challengeId = Success status payload ->
  Forall (fun e => progress e = 0 /\ progressPercentage e = 0 /\ isCompleted e = false)
         (leaderboard payload).
Proof.
  intros H. apply GET_success in H as (_ & _ & ->).
  apply (imap_entry_placeholder _ 0).
Qed.

Lemma leaderboard_progress_is_placeholder_witness :
  Forall (fun e => progress e = 0 /\ progressPercentage e = 0 /\ isCompleted e = false)
         (imap entry (findParticipants sampleDb "c1")).
Proof.
  apply (leaderboard_progress_is_placeholder sampleDb ann "c1" 200
           (mkPayload runners (imap entry (findParticipants sampleDb "c1")))).
  reflexivity.
Defined.

End LeaderboardFacts.

(** ** Request validation *)

Section ValidationFacts.
Import Db Http Zod Examples.

Lemma ap_rejects_l {A B : Type} (f : Parsed (A -> B)) (x : Parsed A) (issue : ZodIssue) :
  rejects f issue -> rejects (ap f x) issue.
Proof.
  destruct f as [e1|f], x as [e2|x]; simpl; try tauto.
  intros H. apply in_or_app. now left.
Qed.

Lemma ap_rejects_r {A B : Type} (f : Parsed (A -> B)) (x : Parsed A) (issue : ZodIssue) :
  rejects x issue -> rejects (ap f x) issue.
Proof.
  destruct f as [e1|f], x as [e2|x]; simpl; try tauto.
  intros H. apply in_or_app. now right.
Qed.

Lemma rejects_first {A : Type} (p : Parsed A) (issue : ZodIssue) :
  rejects p issue -> exists first rest, p = inl (first :: rest) /\ In issue (first :: rest).
Proof.
  destruct p as [[|first rest]|a]; simpl; try tauto.
  intros H. now exists first, rest.
Qed.

Lemma number_positive_rejects (path : string) (msg : option string) (n : R) :
  n <= 0 ->
  rejects (number_positive path msg (Some (JNumber n)))
          (mkIssue path (from_option Custom (Default too_small) msg)).
Proof.
  intros H. unfold number_positive. rewrite (proj2 (gt_false n 0) H).
  simpl. now left.
Qed.

Lemma challengeSchema_rejects_goalValue (fields : gmap string json) (g : R) :
  fields !! "goalValue"%string = Some (JNumber g) ->
  g <= 0 ->
  rejects (ChallengesRoute.challengeSchema (Object fields))
          (mkIssue "goalValue" (Custom "Goal value must be positive")).
Proof.
  intros Hfield Hg. unfold ChallengesRoute.challengeSchema, object,
    ChallengesRoute.challengeShape.
  do 3 apply ap_rejects_l. apply ap_rejects_r.
  rewrite Hfield. now apply (number_positive_rejects _ (Some _)).
Qed.

Lemma foodEntrySchema_rejects_quantity (fields : gmap string json) (q : R) :
  fields !! "quantity"%string = Some (JNumber q) ->
  q <= 0 ->
  rejects (FoodsRoute.foodEntrySchema (Object fields))
          (mkIssue "quantity" (Default too_small)).
Proof.
  intros Hfield Hq. unfold FoodsRoute.foodEntrySchema, object,
    FoodsRoute.foodEntryShape.
  do 7 apply ap_rejects_l. apply ap_rejects_r.
  rewrite Hfield. now apply (number_positive_rejects _ None).
Qed.

Lemma foodRequest_parses (quantity : R) :
  0 < quantity ->
  FoodsRoute.foodEntrySchema (Object (foodRequest quantity)) = inr (oats quantity).
Proof.
  intros H. unfold FoodsRoute.foodEntrySchema, object, FoodsRoute.foodEntryShape.
  replace (foodRequest quantity !! "quantity"%string) with (Some (JNumber quantity))
    by reflexivity.
  unfold number_positive. rewrite (proj2 (gt_true quantity 0) H).
  reflexivity.
Qed.

(** C9.  A create request whose goal value (for a challenge) or quantity
    (for a food entry) is a non-positive number, and which reaches the
    validation (it carries a session and, for a food entry, names a meal of
    the caller), is rejected with status 400 and the message of the first
    validation issue, the issues including the one for the goal value or
    the quantity; nothing is persisted.  A request that the guards in
    front of the validation stop is answered 401 or 404 by them, and again
    nothing is persisted. *)
Theorem invalid_create_request_is_rejected :
  (forall (parseDate : string -> option Z) (db : Db.t) (session : Session)
          (fields : gmap string json) (newId : string) (now : Z) (g : R),
      fields !! "goalValue"%string = Some (JNumber g) ->
      g <= 0 ->
      snd (ChallengesRoute.POST parseDate db session (Object fields) newId now) = db /\
      match Js.truthy_str (session ≫= su_id) with
      | None =>
          fst (ChallengesRoute.POST parseDate db session (Object fields) newId now)
          = Failure 401 (Custom "Unauthorized")
      | Some _ =>
          exists first rest,
            ChallengesRoute.challengeSchema (Object fields) = inl (first :: rest) /\
            In (mkIssue "goalValue" (Custom "Goal value must be positive")) (first :: rest) /\
            fst (ChallengesRoute.POST parseDate db session (Object fields) newId now)
            = Failure 400 (message first)
      end) /\
  (forall (db : Db.t) (session : Session) (mealId : string)
          (fields : gmap string json) (newId : string) (q : R),
      fields !! "quantity"%string = Some (JNumber q) ->
      q <= 0 ->
      snd (FoodsRoute.POST db session mealId (Object fields) newId) = db /\
      match Js.truthy_str (session ≫= su_id) with
      | None =>
          fst (FoodsRoute.POST db session mealId (Object fields) newId)
          = Failure 401 (Custom "Unauthorized")
      | Some userId =>
          match FoodsRoute.findMeal db mealId userId with
          | None =>
              fst (FoodsRoute.POST db session mealId (Object fields) newId)
              = Failure 404 (Custom "Meal not found")
          | Some _ =>
              exists first rest,
                FoodsRoute.foodEntrySchema (Object fields) = inl (first :: rest) /\
                In (mkIssue "quantity" (Default too_small)) (first :: rest) /\
                fst (FoodsRoute.POST db session mealId (Object fields) newId)
                = Failure 400 (message first)
          end
      end).
Proof.
  split.
  - intros parseDate db session fields newId now g Hfield Hg.
    destruct (rejects_first _ _ (challengeSchema_rejects_goalValue fields g Hfield Hg))
      as (first & rest & Hparse & Hin).
    unfold ChallengesRoute.POST.
    destruct (Js.truthy_str (session ≫= su_id)) as [userId|].
    + rewrite Hparse. simpl. split; [reflexivity|]. now exists first, rest.
    + simpl. auto.
  - intros db session mealId fields newId q Hfield Hq.
    destruct (rejects_first _ _ (foodEntrySchema_rejects_quantity fields q Hfield Hq))
      as (first & rest & Hparse & Hin).
    unfold FoodsRoute.POST.
    destruct (Js.truthy_str (session ≫= su_id)) as [userId|]; [|simpl; auto].
    destruct (FoodsRoute.findMeal db mealId userId); [|simpl; auto].
    rewrite Hparse. simpl. split; [reflexivity|]. now exists first, rest.
Qed.

Lemma invalid_create_request_is_rejected_witness :
  fst (ChallengesRoute.POST anyDate sampleDb ann (Object badChallenge) "c9" 0)
  = Failure 400 (Custom "Goal value must be positive") /\
  snd (ChallengesRoute.POST anyDate sampleDb ann (Object badChallenge) "c9" 0) = sampleDb /\
  (exists msg, fst (FoodsRoute.POST kitchen ann "m1" (Object (foodRequest 0)) "f1")
               = Failure 400 msg) /\
  snd (FoodsRoute.POST kitchen ann "m1" (Object (foodRequest 0)) "f1") = kitchen.
Proof.
  destruct invalid_create_request_is_rejected as [Hchallenge Hfood].
  assert (-5 <= 0) as Hneg by lra.
  assert (0 <= 0) as Hzero by lra.
  destruct (Hchallenge anyDate sampleDb ann badChallenge "c9"%string 0%Z (-5)
              eq_refl Hneg) as [Hdb Hresp].
  destruct (Hfood kitchen ann "m1"%string (foodRequest 0) "f1"%string 0
              eq_refl Hzero) as [Hdb' Hresp'].
  simpl in Hresp, Hresp'.
  destruct Hresp as (first & rest & Hparse & _ & Hresp).
  destruct Hresp' as (first' & rest' & _ & _ & Hresp').
  split; [|split; [exact Hdb|split; [|exact Hdb']]].
  - rewrite Hresp. f_equal.
    unfold ChallengesRoute.challengeSchema, object, ChallengesRoute.challengeShape in Hparse.
    replace (badChallenge !! "goalValue"%string) with (Some (JNumber (-5))) in Hparse
      by reflexivity.
    unfold number_positive in Hparse. rewrite (proj2 (gt_false (-5) 0) Hneg) in Hparse.
    simpl in Hparse. injection Hparse as <- _. reflexivity.
  - now exists (message first').
Defined.

End ValidationFacts.

(** ** Incremental meal counters *)

Section CounterFacts.
Import Db Http Zod FoodsRoute Examples.

Lemma findMeal_Some (db : Db.t) (mealId userId : string) (m : Meal) :
  findMeal db mealId userId = Some m ->
  meals db !! mealId = Some m /\ meal_userId m = userId.
Proof.
  unfold findMeal. destruct (meals db !! mealId) as [m'|]; [|discriminate].
  destruct (decide (meal_userId m' = userId)); [|discriminate].
  intros [= <-]. auto.
Qed.

Lemma decrement_increment (m : Meal) (calories protein carbs fats : R) :
  decrement (increment m calories protein carbs fats) calories protein carbs fats = m.
Proof.
  destruct m. unfold decrement, increment. simpl. f_equal; lra.
Qed.

(** A valid request of the owner of the meal creates the entry and adds,
    to each stored total, the per-unit value times the quantity. *)
Lemma POST_adds_entry (db : Db.t) (session : Session) (userId mealId newId : string)
    (m : Meal) (fields : gmap string json) (foodData : FoodInput) :
  Js.truthy_str (session ≫= su_id) = Some userId ->
  findMeal db mealId userId = Some m ->
  foodEntrySchema (Object fields) = inr foodData ->
  foodEntries db !! newId = None ->
  let entry := mkFoodEntry mealId (in_foodName foodData) (in_quantity foodData)
                           (in_calories foodData) (in_protein foodData)
                           (in_carbs foodData) (in_fats foodData) in
  let updated := increment m (in_calories foodData * in_quantity foodData)
                             (in_protein foodData * in_quantity foodData)
                             (in_carbs foodData * in_quantity foodData)
                             (in_fats foodData * in_quantity foodData) in
  POST db session mealId (Object fields) newId
  = (Success 201 (mkCreated updated newId entry),
     withMeals (withFoodEntries db (<[newId := entry]> (foodEntries db)))
               (<[mealId := updated]> (meals db))).
Proof.
  intros Hsession Hmeal Hparse Hfresh entry updated.
  destruct (findMeal_Some _ _ _ _ Hmeal) as [Hlookup Howner].
  unfold POST. rewrite Hsession, Hmeal, Hparse, Hfresh. simpl.
  rewrite Hlookup. reflexivity.
Qed.

(** On the route of the meal the entry was added to, the round trip holds:
    the delete lowers each stored total by what the add had added, and the
    database is again the one before the add. *)
Lemma add_then_delete_same_route
    (db : Db.t) (session : Session) (userId mealId newId : string) (m : Meal)
    (fields : gmap string json) (foodData : FoodInput) :
  Js.truthy_str (session ≫= su_id) = Some userId ->
  findMeal db mealId userId = Some m ->
  foodEntrySchema (Object fields) = inr foodData ->
  foodEntries db !! newId = None ->
  newId <> ""%string ->
  exists created db1,
    POST db session mealId (Object fields) newId = (Success 201 created, db1) /\
    updatedMeal created
    = increment m (in_calories foodData * in_quantity foodData)
                  (in_protein foodData * in_quantity foodData)
                  (in_carbs foodData * in_quantity foodData)
                  (in_fats foodData * in_quantity foodData) /\
    DELETE db1 session mealId (Some newId) = (Success 200 m, db).
Proof.
  intros Hsession Hmeal Hparse Hfresh Hid.
  destruct (findMeal_Some _ _ _ _ Hmeal) as [Hlookup Howner].
  pose proof (POST_adds_entry db session userId mealId newId m fields foodData
                Hsession Hmeal Hparse Hfresh) as Hpost.
  cbv zeta in Hpost.
  set (entry := mkFoodEntry mealId (in_foodName foodData) (in_quantity foodData)
                            (in_calories foodData) (in_protein foodData)
                            (in_carbs foodData) (in_fats foodData)) in *.
  set (updated := increment m (in_calories foodData * in_quantity foodData)
                              (in_protein foodData * in_quantity foodData)
                              (in_carbs foodData * in_quantity foodData)
                              (in_fats foodData * in_quantity foodData)) in *.
  set (db1 := withMeals (withFoodEntries db (<[newId := entry]> (foodEntries db)))
                        (<[mealId := updated]> (meals db))) in *.
  exists (mkCreated updated newId entry), db1.
  split; [exact Hpost|]. split; [reflexivity|].
  assert (foodEntries db1 = <[newId := entry]> (foodEntries db)) as Hentries
    by reflexivity.
  assert (meals db1 = <[mealId := updated]> (meals db)) as Hmeals
    by reflexivity.
  assert (Js.truthy_str (Some newId) = Some newId) as Htruthy
    by (unfold Js.truthy_str; now rewrite decide_False).
  unfold DELETE. rewrite Hsession, Htruthy, Hentries, lookup_insert_eq.
  change (fe_mealId entry) with mealId.
  rewrite Hmeals, lookup_insert_eq.
  change (meal_userId updated) with (meal_userId m).
  rewrite decide_True by assumption.
  change (meals (withFoodEntries db1 (delete newId (<[newId := entry]> (foodEntries db)))))
    with (meals db1).
  rewrite Hmeals, lookup_insert_eq.
  change (decrement updated (calories entry * quantity entry)
                    (protein entry * quantity entry)
                    (carbs entry * quantity entry) (fats entry * quantity entry))
    with (decrement updated (in_calories foodData * in_quantity foodData)
                    (in_protein foodData * in_quantity foodData)
                    (in_carbs foodData * in_quantity foodData)
                    (in_fats foodData * in_quantity foodData)).
  unfold updated. rewrite decrement_increment.
  f_equal. unfold withMeals, withFoodEntries.
  cbn [users meals foodEntries challenges participations activities db1].
  rewrite delete_insert_eq, delete_id by assumption.
  rewrite insert_insert_eq, insert_id by assumption.
  destruct db; reflexivity.
Qed.

(** C10, at a failing input.  The user adds two units of a 100-calorie food
    to the meal [m1] and then deletes that entry with a request on the route
    of their other meal [m2].  The entry is deleted, the totals of [m1] keep
    the 200 calories that the add had added, and the totals of [m2] lose
    200 calories. *)
Theorem delete_on_other_route_breaks_totals :
  exists created db1 other db2,
    POST twoMeals ann "m1" (Object (foodRequest 2)) "f1" = (Success 201 created, db1) /\
    foodEntries db1 !! "f1"%string = Some (foodEntry created) /\
    fe_mealId (foodEntry created) = "m1"%string /\
    DELETE db1 ann "m2" (Some "f1"%string) = (Success 200 other, db2) /\
    foodEntries db2 !! "f1"%string = None /\
    totalCalories <$> (meals twoMeals !! "m1"%string) = Some 250 /\
    totalCalories <$> (meals db2 !! "m1"%string) = Some (250 + 100 * 2) /\
    totalCalories <$> (meals twoMeals !! "m2"%string) = Some 600 /\
    totalCalories <$> (meals db2 !! "m2"%string) = Some (600 - 100 * 2).
Proof.
  assert (0 < 2) as Hpos by lra.
  pose proof (POST_adds_entry twoMeals ann "u1" "m1" "f1" breakfast
                (foodRequest 2) (oats 2) eq_refl eq_refl
                (foodRequest_parses 2 Hpos) eq_refl) as Hpost.
  cbv zeta in Hpost.
  eexists _, _, _, _. split; [exact Hpost|].
  repeat split; reflexivity.
Qed.

End CounterFacts.

(** ** The record-activity page: display and controls *)

Section ActivityPageFacts.
Import RecordActivity ActivityPage.

Lemma twoDigits_length (n : nat) :
  (n < 100)%nat -> String.length (twoDigits n) = 2%nat.
Proof.
  intros H.
  assert (forallb (fun k => String.length (twoDigits k) =? 2)%nat (seq 0 100) = true)
    as Hall by (vm_compute; reflexivity).
  rewrite forallb_forall in Hall.
  apply Nat.eqb_eq, Hall, in_seq. lia.
Qed.

Lemma twoDigits_inj (n m : nat) :
  (n < 100)%nat -> (m < 100)%nat -> twoDigits n = twoDigits m -> n = m.
Proof.
  intros Hn Hm Heq.
  assert (forallb (fun a => forallb (fun b =>
            implb (bool_decide (twoDigits a = twoDigits b)) (a =? b)%nat)
            (seq 0 100)) (seq 0 100) = true)
    as Hall by (vm_compute; reflexivity).
  rewrite forallb_forall in Hall.
  specialize (Hall n). rewrite in_seq in Hall.
  specialize (Hall ltac:(lia)). rewrite forallb_forall in Hall.
  specialize (Hall m). rewrite in_seq in Hall. specialize (Hall ltac:(lia)).
  rewrite bool_decide_eq_true_2 in Hall by assumption.
  now apply Nat.eqb_eq.
Qed.

Lemma twoDigits_shape (n : nat) :
  (n < 100)%nat -> exists c1 c2, twoDigits n = String c1 (String c2 EmptyString).
Proof.
  intros H. pose proof (twoDigits_length n H) as Hlen.
  destruct (twoDigits n) as [|c1 [|c2 [|c3 rest]]]; simpl in Hlen; try discriminate.
  now exists c1, c2.
Qed.

Lemma clock_parts (seconds : nat) :
  ((seconds mod 3600) / 60 < 60)%nat /\
  (seconds mod 60 < 60)%nat /\
  seconds = (seconds / 3600 * 3600 + (seconds mod 3600) / 60 * 60 + seconds mod 60)%nat.
Proof.
  pose proof (Nat.div_mod_eq seconds 3600) as H1.
  pose proof (Nat.mod_upper_bound seconds 3600 ltac:(lia)) as H2.
  pose proof (Nat.div_mod_eq (seconds mod 3600) 60) as H3.
  pose proof (Nat.mod_upper_bound (seconds mod 3600) 60 ltac:(lia)) as H4.
  pose proof (Nat.mod_upper_bound seconds 60 ltac:(lia)) as H5.
  assert ((seconds mod 3600) mod 60 = seconds mod 60)%nat as H6.
  { replace 3600%nat with (60 * 60)%nat by reflexivity.
    rewrite Nat.Div0.mod_mul_r.
    rewrite Nat.mul_comm, Nat.Div0.mod_add. apply Nat.Div0.mod_mod. }
  rewrite H6 in H3.
  repeat split; try lia.
Qed.

(** Below one hundred hours the clock is eight characters long, and two
    different durations are never shown as the same clock. *)
Theorem formatDuration_is_an_exact_clock (a b : nat) :
  (a / 3600 < 100)%nat -> (b / 3600 < 100)%nat ->
  String.length (formatDuration a) = 8%nat /\
  (formatDuration a = formatDuration b -> a = b).
Proof.
  intros Hah Hbh.
  destruct (clock_parts a) as (Ham & Has & Hadd).
  destruct (clock_parts b) as (Hbm & Hbs & Hbdd).
  unfold formatDuration. cbv zeta.
  pose proof (twoDigits_inj (a / 3600) (b / 3600) Hah Hbh) as Ih.
  pose proof (twoDigits_inj (a mod 3600 / 60) (b mod 3600 / 60) ltac:(lia) ltac:(lia)) as Im.
  pose proof (twoDigits_inj (a mod 60) (b mod 60) ltac:(lia) ltac:(lia)) as Is.
  destruct (twoDigits_shape (a / 3600) Hah) as (h1 & h2 & Eh).
  destruct (twoDigits_shape (a mod 3600 / 60) ltac:(lia)) as (m1 & m2 & Em).
  destruct (twoDigits_shape (a mod 60) ltac:(lia)) as (s1 & s2 & Es).
  destruct (twoDigits_shape (b / 3600) Hbh) as (h1' & h2' & Eh').
  destruct (twoDigits_shape (b mod 3600 / 60) ltac:(lia)) as (m1' & m2' & Em').
  destruct (twoDigits_shape (b mod 60) ltac:(lia)) as (s1' & s2' & Es').
  rewrite Eh, Em, Es, Eh', Em', Es' in *.
  split; [reflexivity|].
  simpl. intros Heq. injection Heq as -> -> -> -> -> ->.
  specialize (Ih eq_refl). specialize (Im eq_refl). specialize (Is eq_refl).
  lia.
Qed.

Lemma formatDuration_is_an_exact_clock_witness :
  String.length (formatDuration 3725) = 8%nat /\
  (formatDuration 3725 = formatDuration 59 -> 3725%nat = 59%nat).
Proof.
  apply (formatDuration_is_an_exact_clock 3725 59); vm_compute; lia.
Defined.

Lemma fixes_frame (fixes : list GeolocationPosition) (r : Recorder) (d : nat) :
  fold_left onPosition fixes (mkRecorder (positions r) (distance r) d)
  = mkRecorder (positions (fold_left onPosition fixes r))
               (distance (fold_left onPosition fixes r)) d.
Proof.
  revert r. induction fixes as [|f fixes IH]; intros r.
  - reflexivity.
  - cbn [fold_left]. rewrite <- IH. reflexivity.
Qed.

Lemma fixes_keep_duration (fixes : list GeolocationPosition) (r : Recorder) :
  fold_left onPosition fixes r
  = mkRecorder (positions (fold_left onPosition fixes r))
               (distance (fold_left onPosition fixes r)) (duration r).
Proof. destruct r as [ps d n]. apply (fixes_frame fixes (mkRecorder ps d n) n). Qed.

(** One event of a recording keeps the page live, moves the clock only on
    an unpaused second, and touches the GPS state only on a position. *)
Lemma session_step (p : Page) (e : SessionEvent) :
  live p ->
  live (step p (event e)) /\
  duration (recorder (step p (event e)))
  = (duration (recorder p)
     + match e with Tick => if isPaused p then 0 else 1 | _ => 0 end)%nat /\
  isPaused (step p (event e))
  = match e with Pause => true | Resume => false | _ => isPaused p end /\
  forall fixes,
    positions (fold_left onPosition fixes (recorder (step p (event e))))
    = positions (fold_left onPosition
                   (match e with Position f => f :: fixes | _ => fixes end) (recorder p)) /\
    distance (fold_left onPosition fixes (recorder (step p (event e))))
    = distance (fold_left onPosition
                  (match e with Position f => f :: fixes | _ => fixes end) (recorder p)).
Proof.
  intros (Hrec & Hwatch & Hint & Hlive).
  destruct p as [r rec paused dialog watch n ilive]. simpl in *. subst.
  destruct e as [| | |f]; destruct paused; simpl; unfold live; simpl;
    repeat split; try lia;
    try (unfold tick; rewrite fixes_frame; reflexivity).
Qed.

Lemma session_invariant (session : list SessionEvent) (p : Page) :
  live p ->
  let q := fold_left step (map event session) p in
  duration (recorder q) = (duration (recorder p) + activeSeconds (isPaused p) session)%nat /\
  positions (recorder q)
  = positions (fold_left onPosition (reported session) (recorder p)) /\
  distance (recorder q)
  = distance (fold_left onPosition (reported session) (recorder p)).
Proof.
  revert p. induction session as [|e rest IH]; intros p Hlive; cbn [map fold_left].
  - cbn. repeat split; lia.
  - destruct (session_step p e Hlive) as (Hq & Hdur & Hpaused & Hgps).
    specialize (IH (step p (event e)) Hq). cbv zeta in IH.
    destruct IH as (Hd & Hp & Hds).
    rewrite Hd, Hp, Hds, Hdur, Hpaused.
    destruct (Hgps (reported rest)) as [Hgp Hgd]. rewrite Hgp, Hgd.
    destruct e; cbn; repeat split; lia.
Qed.

(** During a recording the timer counts exactly the seconds that pass while
    the recording is not paused; the positions and the distance are those
    of all the fixes the device reported, whether paused or not. *)
Theorem pause_stops_the_clock_not_the_gps (session : list SessionEvent) :
  let page := run (ClickStart :: map event session) in
  duration (recorder page) = activeSeconds false session /\
  positions (recorder page) = map newPos (reported session) /\
  distance (recorder page) = pathDistance (map newPos (reported session)).
Proof.
  unfold run. cbn [fold_left step initial isRecording].
  assert (live (ActivityPage.startRecording initial)) as Hlive
    by (unfold live; simpl; auto).
  destruct (session_invariant session _ Hlive) as (Hd & Hp & Hds).
  cbv zeta. rewrite Hd, Hp, Hds.
  change (recorder (ActivityPage.startRecording initial)) with RecordActivity.startRecording.
  fold (record (reported session)).
  rewrite record_positions, record_distance. simpl. auto.
Qed.

End ActivityPageFacts.

(** ** The haversine distance *)

Section GeodesyFacts.
Import RecordActivity Geodesy.








End GeodesyFacts.

(** ** Metrics of a recording *)

Section MetricsFacts.
Import RecordActivity.

Lemma contribution_cases (p q : Position) :
  contribution p q = 0 \/ 0.005 < contribution p q.
Proof.
  unfold contribution. destruct (Js.gt _ _) eqn:H; [right|left; reflexivity].
  now apply gt_true in H.
Qed.

Lemma pathDistance_cases (path : list Position) :
  pathDistance path = 0 \/ 0.005 < pathDistance path.
Proof.
  induction path as [|p [|q rest] IH]; try (left; reflexivity).
  change (pathDistance (p :: q :: rest))
    with (contribution p q + pathDistance (q :: rest)).
  destruct (contribution_cases p q), IH; [left|right|right|right]; lra.
Qed.

(** The distance of a recording never decreases when a further fix
    arrives, and it is either 0 or more than 5 meters. *)
Theorem distance_grows_in_steps_over_5_meters
    (fixes : list GeolocationPosition) (next : GeolocationPosition) :
  distance (record fixes) <= distance (record (fixes ++ [next])) /\
  (distance (record fixes) = 0 \/ 0.005 < distance (record fixes)).
Proof.
  split.
  - rewrite !record_distance, map_app. simpl map. rewrite pathDistance_snoc.
    destruct (last (map newPos fixes)) as [p|]; simpl; [|lra].
    destruct (contribution_cases p (newPos next)); lra.
  - rewrite record_distance. apply pathDistance_cases.
Qed.

(** The pace of a recording is a finite number, never negative and at most
    200 times its duration in minutes: the quotient is only ever taken over
    a distance of more than 5 meters. *)
Theorem pace_of_a_recording_is_bounded
    (fixes : list GeolocationPosition) (seconds : nat) :
  exists pace,
    avgPace seconds (distance (record fixes)) = Js.Finite pace /\
    0 <= pace <= INR seconds / 60 * 200.
Proof.
  pose proof (pos_INR seconds) as Hs.
  rewrite record_distance.
  destruct (pathDistance_cases (map newPos fixes)) as [Hzero|Hfar].
  - exists 0. rewrite Hzero. split; [|lra].
    unfold avgPace. rewrite (proj2 (gt_false 0 0)) by lra.
    now rewrite andb_false_r.
  - set (d := pathDistance (map newPos fixes)) in *.
    assert (0 < d) as Hd by lra.
    unfold avgPace. rewrite (proj2 (gt_true d 0) Hd).
    destruct seconds as [|n].
    + exists 0. simpl. split; [reflexivity|lra].
    + exists (INR (S n) / 60 / d).
      change (0 <? S n)%nat with true. cbn [andb].
      unfold Js.div, Js.bind.
      destruct (Req_dec_T 60 0) as [H60|_]; [lra|].
      destruct (Req_dec_T d 0) as [H0|_]; [lra|].
      split; [reflexivity|].
      assert (0 <= INR (S n) / 60) as Hm by lra.
      assert (/ d < 200) as Hinv.
      { replace 200 with (/ 0.005) by lra.
        apply Rinv_lt_contravar; lra. }
      assert (0 < / d) as Hpos by now apply Rinv_0_lt_compat.
      unfold Rdiv at 1 3. nra.
Qed.

Lemma climb_nonneg (a b : option R) : 0 <= climb a b.
Proof.
  unfold climb. destruct a, b; try lra.
  destruct (Js.gt _ _) eqn:H; [apply gt_true in H|]; lra.
Qed.

Lemma positiveDeltas_nonneg (altitudes : list (option R)) :
  0 <= positiveDeltas altitudes.
Proof.
  induction altitudes as [|a [|b rest] IH]; simpl; try lra.
  pose proof (climb_nonneg a b). simpl in IH. lra.
Qed.

Lemma positiveDeltas_snoc (altitudes : list (option R)) (b : option R) :
  positiveDeltas (altitudes ++ [b])
  = positiveDeltas altitudes + from_option (fun a => climb a b) 0 (last altitudes).
Proof.
  induction altitudes as [|a [|a' rest] IH].
  - simpl. lra.
  - simpl. lra.
  - change (positiveDeltas ((a :: a' :: rest) ++ [b]))
      with (climb a a' + positiveDeltas ((a' :: rest) ++ [b])).
    rewrite IH. simpl. lra.
Qed.

(** The elevation gain is computed for every list of positions (no element
    is read out of range); it is the sum, over the pairs of consecutive
    positions whose altitudes are both neither missing nor zero, of the
    altitude differences that are positive; it is never negative, and it
    never decreases when a position is appended. *)
Theorem elevationGain_is_total_and_monotone
    (positions : list Position) (next : Position) :
  exists gain gain',
    elevationGain positions = Some gain /\
    gain = positiveDeltas (usableAltitudes positions) /\
    0 <= gain /\
    elevationGain (positions ++ [next]) = Some gain' /\
    gain <= gain'.
Proof.
  exists (positiveDeltas (usableAltitudes positions)),
         (positiveDeltas (usableAltitudes (positions ++ [next]))).
  rewrite !elevationGain_usable.
  repeat split; try reflexivity.
  - apply positiveDeltas_nonneg.
  - unfold usableAltitudes. rewrite map_app. simpl map.
    rewrite positiveDeltas_snoc.
    destruct (last _); simpl; [|lra].
    pose proof (climb_nonneg o (Js.truthy (altitude next))). lra.
Qed.

End MetricsFacts.

(** ** Buckets of the charts, the dashboard and the insights *)

Section MapKeys.
Context {V : Type}.

Lemma get_None_keys (m : list (string * V)) (k : string) :
  JsMap.get m k = None <-> ~ In k (map fst m).
Proof.
  induction m as [|[k' v] m IH]; simpl.
  - tauto.
  - destruct (decide (k' = k)) as [->|Hne].
    + split; [discriminate|]. intros H. exfalso. apply H. now left.
    + rewrite IH. split; [intros H [?|?]; [congruence|tauto] | tauto].
Qed.

Lemma keys_set (m : list (string * V)) (k : string) (v : V) :
  map fst (JsMap.set m k v)
  = if JsMap.has m k then map fst m else map fst m ++ [k].
Proof.
  unfold JsMap.has. induction m as [|[k' v'] m IH]; simpl.
  - reflexivity.
  - destruct (decide (k' = k)) as [->|Hne]; simpl.
    + reflexivity.
    + rewrite IH. now destruct (JsMap.get m k).
Qed.

Lemma keys_set_NoDup (m : list (string * V)) (k : string) (v : V) :
  List.NoDup (map fst m) -> List.NoDup (map fst (JsMap.set m k v)).
Proof.
  intros Hnd. rewrite keys_set. unfold JsMap.has.
  destruct (JsMap.get m k) eqn:Hget; [assumption|].
  apply get_None_keys in Hget.
  apply NoDup_ListNoDup, NoDup_app. repeat split.
  - now apply NoDup_ListNoDup.
  - intros x Hx Hk. apply list_elem_of_In in Hx.
    apply list_elem_of_singleton in Hk. congruence.
  - apply NoDup_singleton.
Qed.

Lemma fold_set_NoDup {A : Type} (stepf : list (string * V) -> A -> list (string * V))
    (xs : list A) (acc : list (string * V)) :
  (forall m x, List.NoDup (map fst m) -> List.NoDup (map fst (stepf m x))) ->
  List.NoDup (map fst acc) -> List.NoDup (map fst (fold_left stepf xs acc)).
Proof.
  intros Hstep. revert acc. induction xs as [|x xs IH]; intros acc Hacc; simpl.
  - assumption.
  - apply IH, Hstep, Hacc.
Qed.

End MapKeys.

Lemma default_truthy (x : option R) : default 0 (Js.truthy x) = default 0 x.
Proof.
  destruct x as [v|]; [|reflexivity]. simpl.
  destruct (Js.falsy v) eqn:H; [|reflexivity].
  apply falsy_true in H. subst. reflexivity.
Qed.

Section ChartsFacts.
Import Db Nutrition Bucketing ChartsRoute.
Variable weekKey : Z -> string.

Lemma weekStep_get (acc : list (string * R)) (w : Workout) (k : string) :
  JsMap.get (weekStep weekKey acc w) k
  = if decide (weekKey (w_date w) = k)
    then Some (default 0 (JsMap.get acc k) + 1)
    else JsMap.get acc k.
Proof.
  unfold weekStep. destruct (decide (weekKey (w_date w) = k)) as [<-|Hne].
  - rewrite get_set_eq, default_truthy. reflexivity.
  - now rewrite get_set_ne.
Qed.

Lemma workoutsByWeek_get (workouts : list Workout) (acc : list (string * R)) (k : string) :
  JsMap.get (fold_left (weekStep weekKey) workouts acc) k
  = match inWeek weekKey k workouts with
    | [] => JsMap.get acc k
    | ws => Some (default 0 (JsMap.get acc k) + INR (length ws))
    end.
Proof.
  revert acc. induction workouts as [|w rest IH]; intros acc.
  - reflexivity.
  - cbn [fold_left]. rewrite IH, weekStep_get. unfold inWeek.
    rewrite filter_cons.
    destruct (decide (weekKey (w_date w) = k)) as [Heq|Hne].
    + destruct (filter _ rest) as [|w' ws] eqn:Hrest.
      * simpl; f_equal; try lra.
      * cbn [default]. f_equal.
        change (length (w :: w' :: ws)) with (S (length (w' :: ws))).
        rewrite (S_INR (length (w' :: ws))).
        destruct (JsMap.get acc k); simpl; lra.
    + reflexivity.
Qed.

Lemma weekStep_sumOver (acc : list (string * R)) (w : Workout) :
  JsMap.sumOver id (weekStep weekKey acc w) = JsMap.sumOver id acc + 1.
Proof.
  unfold weekStep. rewrite sumOver_set, default_truthy.
  destruct (JsMap.get acc _); simpl; unfold id; lra.
Qed.

(** The workouts-per-week map has one entry for each week that has a
    workout, in distinct keys; the entry of a week is the number of
    workouts of that week, and the counts add up to the number of
    workouts. *)
Theorem workoutsByWeek_counts_each_week (workouts : list Workout) (k : string) :
  List.NoDup (map fst (workoutsByWeek weekKey workouts)) /\
  JsMap.get (workoutsByWeek weekKey workouts) k
  = match inWeek weekKey k workouts with
    | [] => None
    | ws => Some (INR (length ws))
    end /\
  JsMap.sumOver id (workoutsByWeek weekKey workouts) = INR (length workouts).
Proof.
  unfold workoutsByWeek. split; [|split].
  - apply fold_set_NoDup; [|constructor].
    intros m w Hm. now apply keys_set_NoDup.
  - rewrite workoutsByWeek_get. destruct (inWeek weekKey k workouts); [reflexivity|].
    simpl default. f_equal. lra.
  - assert (forall acc, JsMap.sumOver id (fold_left (weekStep weekKey) workouts acc)
                        = JsMap.sumOver id acc + INR (length workouts)) as H.
    { induction workouts as [|w rest IH]; intros acc.
      - simpl. lra.
      - cbn [fold_left]. rewrite IH, weekStep_sumOver.
        change (length (w :: rest)) with (S (length rest)). rewrite S_INR. lra. }
    rewrite H. unfold JsMap.sumOver. simpl. rewrite sum_nil. lra.
Qed.

End ChartsFacts.

Section DayBucketFacts.
Import Db Nutrition Bucketing.
Variable isoDate : Z -> string.

Lemma nutritionStep_get (acc : list (string * Macros)) (m : MealWithEntries) (k : string) :
  JsMap.get (nutritionStep isoDate acc m) k
  = if decide (isoDate (meal_date (meal m)) = k)
    then Some (addMacros (default zeroMacros (JsMap.get acc k)) (mealTotals (entries m)))
    else JsMap.get acc k.
Proof.
  unfold nutritionStep. destruct (decide (isoDate (meal_date (meal m)) = k)) as [<-|Hne].
  - now rewrite get_set_eq.
  - now rewrite get_set_ne.
Qed.

Lemma nutritionByDate_get (mealRows : list MealWithEntries)
    (acc : list (string * Macros)) (k : string) :
  JsMap.get (fold_left (nutritionStep isoDate) mealRows acc) k
  = match filter (fun m => isoDate (meal_date (meal m)) = k) mealRows with
    | [] => JsMap.get acc k
    | ms => Some (fold_left (fun a m => addMacros a (mealTotals (entries m))) ms
                            (default zeroMacros (JsMap.get acc k)))
    end.
Proof.
  revert acc. induction mealRows as [|m rest IH]; intros acc.
  - reflexivity.
  - cbn [fold_left]. rewrite IH, nutritionStep_get.
    rewrite filter_cons.
    destruct (decide (isoDate (meal_date (meal m)) = k)) as [Heq|Hne]; [|reflexivity].
    now destruct (filter _ rest).
Qed.

(** In the charts route the map has one entry for each calendar day that
    has a meal, in distinct keys, and the entry of a day is what the
    dashboard reducer computes from the meals of that day alone. *)
Theorem nutritionByDate_has_one_bucket_per_day
    (mealRows : list MealWithEntries) (k : string) :
  List.NoDup (map fst (nutritionByDate isoDate mealRows)) /\
  JsMap.get (nutritionByDate isoDate mealRows) k
  = match filter (fun m => isoDate (meal_date (meal m)) = k) mealRows with
    | [] => None
    | ms => Some (todayTotals ms)
    end.
Proof.
  unfold nutritionByDate. split.
  - apply fold_set_NoDup; [|constructor].
    intros m x Hm. now apply keys_set_NoDup.
  - rewrite nutritionByDate_get. reflexivity.
Qed.

End DayBucketFacts.

(** ** Grouping by key *)

Section GroupingFacts.
Context {A V : Type}.
Variable key : A -> string.
Variable init : string -> V.
Variable upd : V -> A -> V.










End GroupingFacts.

Section GroupingKeys.
Context {A V W : Type}.
Variable key : A -> string.



End GroupingKeys.

(** ** The day groupings, the averages and the progress bars on doubles *)

Section Binary64Facts.
Import PrimFloat Binary64.
#[local] Open Scope float_scope.

Variable isoDate : Z -> string.





Lemma orElse_truthy (x : option float) (d : float) :
  falsy d = false -> falsy (orElse x d) = false.
Proof.
  intros Hd. unfold orElse. destruct x as [v|]; [|exact Hd].
  destruct (falsy v) eqn:Hv; [exact Hd|exact Hv].
Qed.

Lemma min_100_cap (x : float) : (100 <? min 100 x) = false.
Proof.
  unfold min. replace (is_nan 100) with false by reflexivity.
  cbn [orb]. destruct (is_nan x); [reflexivity|].
  destruct (100 <? x) eqn:Habove; [reflexivity|].
  destruct (x <? 100); [exact Habove|].
  replace (get_sign 100) with false by reflexivity. exact Habove.
Qed.

(** The goal the dashboard divides by is never [0], [-0] or [NaN], and
    the width of a progress bar is never greater than 100, whatever the
    totals of the day are. *)
Theorem dashboard_percent_is_never_above_100
    (todayTotals : Macros) (user : option Profile) :
  falsy (calorieGoal user) = false /\
  falsy (proteinGoal user) = false /\
  (100 <? caloriePercent todayTotals user) = false /\
  (100 <? proteinPercent todayTotals user) = false.
Proof.
  repeat split.
  - apply orElse_truthy. reflexivity.
  - apply orElse_truthy. reflexivity.
  - apply min_100_cap.
  - apply min_100_cap.
Qed.


End Binary64Facts.

Section Binary64Examples.
Import PrimFloat.
#[local] Open Scope float_scope.
#[local] Set Warnings "-inexact-float".


End Binary64Examples.

(** ** The meal log: references and counters *)

Section MealLogFacts.
Import Db Http Zod Nutrition MealLog.
Variable parseDate : string -> option Z.

Lemma ap_inr_inv {A B : Type} (f : Parsed (A -> B)) (x : Parsed A) (y : B) :
  ap f x = inr y -> exists g a, f = inr g /\ x = inr a /\ y = g a.
Proof.
  destruct f as [e1|g], x as [e2|a]; simpl; try discriminate.
  intros [= <-]. now exists g, a.
Qed.

Lemma number_positive_inr (path : string) (msg : option string)
    (v : option json) (n : R) :
  number_positive path msg v = inr n -> 0 < n.
Proof.
  unfold number_positive. destruct v as [[| |x| | |]|]; try discriminate.
  destruct (Js.gt x 0) eqn:H; [|discriminate].
  intros [= <-]. now apply gt_true.
Qed.

(** A food request that passes the schema has a positive quantity. *)
Lemma foodEntrySchema_quantity (body : Body) (foodData : FoodsRoute.FoodInput) :
  FoodsRoute.foodEntrySchema body = inr foodData ->
  0 < FoodsRoute.in_quantity foodData.
Proof.
  unfold FoodsRoute.foodEntrySchema, object.
  destruct body as [| |fields]; try discriminate.
  unfold FoodsRoute.foodEntryShape. intros H.
  repeat (apply ap_inr_inv in H as (? & ? & H & ? & ->)).
  injection H as <-. simpl.
  eapply number_positive_inr; eassumption.
Qed.

(** What a request to add food can do to the database. *)
Lemma add_food_outcome (db : Db.t) (session : Session) (mealId : string)
    (body : Body) (newId : string) :
  snd (FoodsRoute.POST db session mealId body newId) = db \/
  exists m foodData,
    meals db !! mealId = Some m /\
    FoodsRoute.foodEntrySchema body = inr foodData /\
    foodEntries db !! newId = None /\
    let e := mkFoodEntry mealId (FoodsRoute.in_foodName foodData)
                         (FoodsRoute.in_quantity foodData) (FoodsRoute.in_calories foodData)
                         (FoodsRoute.in_protein foodData) (FoodsRoute.in_carbs foodData)
                         (FoodsRoute.in_fats foodData) in
    snd (FoodsRoute.POST db session mealId body newId)
    = FoodsRoute.withMeals
        (FoodsRoute.withFoodEntries db (<[newId := e]> (foodEntries db)))
        (<[mealId := FoodsRoute.increment m (calories e * quantity e)
                       (protein e * quantity e) (carbs e * quantity e)
                       (fats e * quantity e)]> (meals db)).
Proof.
  unfold FoodsRoute.POST.
  destruct (Js.truthy_str _) as [userId|]; [|now left].
  destruct (FoodsRoute.findMeal db mealId userId) as [m|] eqn:Hmeal; [|now left].
  destruct (findMeal_Some _ _ _ _ Hmeal) as [Hlookup _].
  destruct body as [| |fields]; [now left| |].
  - destruct (FoodsRoute.foodEntrySchema NonObject) as [[|? ?]|?] eqn:Hp;
      now left.
  - destruct (FoodsRoute.foodEntrySchema (Object fields)) as [[|? ?]|foodData] eqn:Hp;
      try (now left).
    destruct (foodEntries db !! newId) eqn:Hfresh; [now left|].
    simpl. rewrite Hlookup. right. exists m, foodData. auto.
Qed.

(** What a request to delete food can do to the database. *)
Lemma delete_food_outcome (db : Db.t) (session : Session) (mealId : string)
    (foodEntryId : option string) :
  snd (FoodsRoute.DELETE db session mealId foodEntryId) = db \/
  exists id e owner,
    foodEntryId = Some id /\
    foodEntries db !! id = Some e /\
    meals db !! fe_mealId e = Some owner /\
    match meals db !! mealId with
    | None =>
        snd (FoodsRoute.DELETE db session mealId foodEntryId)
        = FoodsRoute.withFoodEntries db (delete id (foodEntries db))
    | Some m =>
        snd (FoodsRoute.DELETE db session mealId foodEntryId)
        = FoodsRoute.withMeals
            (FoodsRoute.withFoodEntries db (delete id (foodEntries db)))
            (<[mealId := FoodsRoute.decrement m (calories e * quantity e)
                           (protein e * quantity e) (carbs e * quantity e)
                           (fats e * quantity e)]> (meals db))
    end.
Proof.
  unfold FoodsRoute.DELETE.
  destruct (Js.truthy_str (session ≫= su_id)) as [userId|]; [|now left].
  destruct foodEntryId as [id|]; [|now left]. simpl.
  destruct (decide (id = ""%string)); [now left|].
  destruct (foodEntries db !! id) as [e|] eqn:He; [|now left].
  destruct (meals db !! fe_mealId e) as [owner|] eqn:Ho; [|now left].
  destruct (decide (meal_userId owner = userId)); [|now left].
  right. exists id, e, owner. repeat split; try assumption.
  simpl. now destruct (meals db !! mealId).
Qed.

Lemma create_meal_outcome (db : Db.t) (session : Session) (body : Body)
    (newId : string) (now : Z) :
  snd (MealsRoute.POST parseDate db session body newId now) = db \/
  exists userId mealDate,
    meals db !! newId = None /\
    snd (MealsRoute.POST parseDate db session body newId now)
    = FoodsRoute.withMeals db (<[newId := mkMeal userId mealDate 0 0 0 0]> (meals db)).
Proof.
  unfold MealsRoute.POST.
  destruct (Js.truthy_str _) as [userId|]; [|now left].
  destruct body as [| |fields]; [now left| |].
  - destruct (MealsRoute.mealSchema NonObject) as [[|? ?]|?] eqn:Hp;
      now left.
  - destruct (MealsRoute.mealSchema (Object fields)) as [[|? ?]|data] eqn:Hp;
      try (now left).
    cbv zeta.
    destruct (match Js.truthy_str (MealsRoute.in_date data) with
              | Some date => parseDate date
              | None => Some now
              end) as [mealDate|]; [|now left].
    destruct (meals db !! newId) eqn:Hfresh; [now left|].
    right. now exists userId, mealDate.
Qed.

(** Creating a meal, adding a food entry and deleting a food entry, on
    whatever route and whether the request succeeds or is refused, keep the
    references of the meal log intact: every food entry belongs to a meal
    that exists and has a positive quantity; and no request removes a meal
    or changes its owner or its date. *)
Theorem meal_log_keeps_its_references (db : Db.t) (request : Request) :
  integral db ->
  integral (handle parseDate db request) /\
  forall mealId m,
    meals db !! mealId = Some m ->
    exists m', meals (handle parseDate db request) !! mealId = Some m' /\
               meal_userId m' = meal_userId m /\ meal_date m' = meal_date m.
Proof.
  intros Hint.
  assert (forall (mealId0 : string) (m0 updated : Meal) (entries' : gmap string FoodEntry),
             meals db !! mealId0 = Some m0 ->
             meal_userId updated = meal_userId m0 ->
             meal_date updated = meal_date m0 ->
             forall mealId m,
               meals db !! mealId = Some m ->
               exists m',
                 meals (FoodsRoute.withMeals (FoodsRoute.withFoodEntries db entries')
                          (<[mealId0 := updated]> (meals db))) !! mealId = Some m' /\
                 meal_userId m' = meal_userId m /\ meal_date m' = meal_date m) as Hkeep.
  { intros mealId0 m0 updated entries' H0 Hu Hd mealId m Hm.
    cbn [meals FoodsRoute.withMeals FoodsRoute.withFoodEntries].
    destruct (decide (mealId = mealId0)) as [->|Hne].
    - rewrite lookup_insert_eq. exists updated.
      assert (m = m0) as -> by congruence. auto.
    - rewrite lookup_insert_ne by congruence. now exists m. }
  destruct request as [session body newId now
                      |session mealId body newId
                      |session mealId foodEntryId]; cbn [handle].
  - destruct (create_meal_outcome db session body newId now)
      as [->|(userId & mealDate & Hfresh & ->)]; [split; [exact Hint|eauto]|].
    split.
    + intros id e He. destruct (Hint id e He) as [Hm Hq]. split; [|exact Hq].
      cbn [meals FoodsRoute.withMeals]. apply lookup_insert_is_Some'. now right.
    + intros mealId m Hm. cbn [meals FoodsRoute.withMeals].
      rewrite lookup_insert_ne by congruence. now exists m.
  - destruct (add_food_outcome db session mealId body newId)
      as [->|(m & foodData & Hm & Hparse & Hfresh & ->)]; [split; [exact Hint|eauto]|].
    split.
    + intros id e. cbn [meals foodEntries FoodsRoute.withMeals FoodsRoute.withFoodEntries].
      rewrite lookup_insert_Some. intros [[<- <-]|[Hne He]].
      * split; [apply lookup_insert_is_Some'; now left|].
        cbn [quantity]. eapply foodEntrySchema_quantity; eassumption.
      * destruct (Hint id e He) as [Hs Hq]. split; [|exact Hq].
        apply lookup_insert_is_Some'. now right.
    + now apply (Hkeep mealId m).
  - destruct (delete_food_outcome db session mealId foodEntryId)
      as [->|(id & e & owner & -> & He & Ho & Hout)]; [split; [exact Hint|eauto]|].
    destruct (meals db !! mealId) as [m|] eqn:Hm; rewrite Hout.
    + split.
      * intros id' e'.
        cbn [meals foodEntries FoodsRoute.withMeals FoodsRoute.withFoodEntries].
        rewrite lookup_delete_Some. intros [Hne He'].
        destruct (Hint id' e' He') as [Hs Hq]. split; [|exact Hq].
        apply lookup_insert_is_Some'. now right.
      * now apply (Hkeep mealId m).
    + split.
      * intros id' e'. cbn [meals foodEntries FoodsRoute.withFoodEntries].
        rewrite lookup_delete_Some. intros [Hne He']. exact (Hint id' e' He').
      * intros mealId' m' Hm'. cbn [meals FoodsRoute.withFoodEntries]. now exists m'.
Qed.





End MealLogFacts.

Lemma kitchen0_integral : MealLog.integral Samples.kitchen0.
Proof.
  intros id e He. unfold Samples.kitchen0 in He.
  cbn [Db.foodEntries] in He. rewrite lookup_empty in He. discriminate.
Qed.

Lemma meal_log_keeps_its_references_witness :
  MealLog.integral
    (MealLog.handle Examples.anyDate Samples.kitchen0
       (MealLog.AddFood Examples.ann "m1" (Zod.Object (Examples.foodRequest 2)) "f1")).
Proof.
  exact (proj1 (meal_log_keeps_its_references Examples.anyDate Samples.kitchen0
                  (MealLog.AddFood Examples.ann "m1"
                     (Zod.Object (Examples.foodRequest 2)) "f1")
                  kitchen0_integral)).
Defined.


(** ** Challenge participations *)

Section JoinFacts.
Import Db Http Zod JoinRoute.

Lemma nodup_snoc {A : Type} (l : list A) (x : A) :
  List.NoDup l -> ~ In x l -> List.NoDup (l ++ [x]).
Proof.
  induction 1 as [|y l Hy Hl IH]; intros Hx; simpl.
  - constructor; [tauto|constructor].
  - constructor.
    + rewrite in_app_iff. simpl in *. intros [?|[?|[]]]; [tauto|subst; tauto].
    + apply IH. simpl in Hx. tauto.
Qed.

Lemma in_map_filter {A B : Type} (f : A -> B) (P : A -> Prop)
    `{forall x, Decision (P x)} (l : list A) (y : B) :
  In y (map f (filter P l)) -> In y (map f l).
Proof.
  induction l as [|x l IH]; simpl; [tauto|].
  rewrite filter_cons. destruct (decide (P x)); simpl; tauto.
Qed.

Lemma nodup_map_filter {A B : Type} (f : A -> B) (P : A -> Prop)
    `{forall x, Decision (P x)} (l : list A) :
  List.NoDup (map f l) -> List.NoDup (map f (filter P l)).
Proof.
  induction l as [|x l IH]; simpl; intros Hnd.
  - constructor.
  - inversion Hnd as [|? ? Hx Hl]; subst. rewrite filter_cons.
    destruct (decide (P x)); simpl; [|now apply IH].
    constructor; [|now apply IH].
    intros Hin. apply Hx. eapply in_map_filter; eassumption.
Qed.

Lemma in_filter {A : Type} (P : A -> Prop) `{forall x, Decision (P x)}
    (l : list A) (x : A) :
  In x (filter P l) <-> P x /\ In x l.
Proof. rewrite <- !list_elem_of_In. apply list_elem_of_filter. Qed.

Lemma findParticipation_None (db : Db.t) (challengeId userId : string) :
  findParticipation db challengeId userId = None ->
  ~ In (challengeId, userId) (map key (participations db)).
Proof.
  unfold findParticipation. intros Hfind Hin.
  apply in_map_iff in Hin as (p & Hkey & Hin).
  pose proof (find_none _ _ Hfind p Hin) as Hp. simpl in Hp.
  apply bool_decide_eq_false in Hp. apply Hp.
  unfold key in Hkey. injection Hkey as -> ->. auto.
Qed.

Lemma findParticipation_Some (db : Db.t) (challengeId userId : string)
    (p : ChallengeParticipation) :
  findParticipation db challengeId userId = Some p ->
  In p (participations db) /\ cp_challengeId p = challengeId /\ cp_userId p = userId.
Proof.
  unfold findParticipation. intros Hfind.
  apply find_some in Hfind as [Hin Hp]. apply bool_decide_eq_true in Hp. tauto.
Qed.

(** What a request to create a challenge can do to the database. *)
Lemma join_outcome (db : Db.t) (session : Session) (challengeId : string) (now : Z) :
  (snd (POST db session challengeId now) = db /\
   forall msg, fst (POST db session challengeId now) <> Success 200 msg) \/
  exists email user challenge,
    Js.truthy_str (session ≫= su_email) = Some email /\
    LeaderboardRoute.findUser db email = Some user /\
    challenges db !! challengeId = Some challenge /\
    (endDate challenge <? now)%Z = false /\
    findParticipation db challengeId (user_id user) = None /\
    POST db session challengeId now
    = (Success 200 "Joined challenge successfully"%string,
       withParticipations db
         (participations db ++ [mkParticipation challengeId (user_id user) now])).
Proof.
  unfold POST.
  destruct (Js.truthy_str _) as [email|] eqn:Hs;
    [|left; split; [reflexivity|discriminate]].
  destruct (LeaderboardRoute.findUser db email) as [user|] eqn:Hu;
    [|left; split; [reflexivity|discriminate]].
  destruct (challenges db !! challengeId) as [challenge|] eqn:Hc;
    [|left; split; [reflexivity|discriminate]].
  destruct (endDate challenge <? now)%Z eqn:Hexp;
    [left; split; [reflexivity|discriminate]|].
  destruct (findParticipation db challengeId (user_id user)) eqn:Hfind;
    [left; split; [reflexivity|discriminate]|].
  right. exists email, user, challenge. repeat split; try reflexivity; assumption.
Qed.

Lemma find_snoc_self (db : Db.t) (challengeId userId : string) (now : Z) :
  findParticipation db challengeId userId = None ->
  findParticipation
    (withParticipations db (participations db ++ [mkParticipation challengeId userId now]))
    challengeId userId
  = Some (mkParticipation challengeId userId now).
Proof.
  unfold findParticipation. simpl. intros Hnone.
  induction (participations db) as [|p ps IH]; simpl in *.
  - rewrite bool_decide_eq_true_2 by auto. reflexivity.
  - destruct (bool_decide _); [discriminate|]. now apply IH.
Qed.

Lemma filter_snoc_self (db : Db.t) (challengeId userId : string) (now : Z) :
  findParticipation db challengeId userId = None ->
  filter (fun p => ~ (cp_challengeId p = challengeId /\ cp_userId p = userId))
         (participations db ++ [mkParticipation challengeId userId now])
  = participations db.
Proof.
  unfold findParticipation. intros Hnone.
  induction (participations db) as [|p ps IH]; simpl in *.
  - rewrite filter_cons_False; [reflexivity|]. simpl. tauto.
  - destruct (bool_decide _) eqn:Hp; [discriminate|].
    apply bool_decide_eq_false in Hp.
    rewrite filter_cons_True by assumption. f_equal. now apply IH.
Qed.

(** After a user has joined a challenge, a second request to join is
    refused with status 400 and changes nothing, and a request to leave
    succeeds and gives back the database from before the join. *)
Theorem join_then_leave_round_trip
    (db db1 : Db.t) (session : Session) (challengeId : string) (now later : Z)
    (msg : string) :
  POST db session challengeId now = (Success 200 msg, db1) ->
  POST db1 session challengeId later
  = (if (match challenges db !! challengeId with
         | Some c => endDate c <? later
         | None => false
         end)%Z
     then Failure 400 (Custom "Challenge has expired")
     else Failure 400 (Custom "Already participating in this challenge"), db1) /\
  DELETE db1 session challengeId = (Success 200 "Left challenge successfully"%string, db).
Proof.
  intros Hjoin.
  destruct (join_outcome db session challengeId now)
    as [[_ Hno]|(email & user & challenge & Hs & Hu & Hc & _ & Hfind & Heq)].
  { exfalso. apply (Hno msg). now rewrite Hjoin. }
  rewrite Heq in Hjoin. injection Hjoin as _ <-.
  pose proof (find_snoc_self db challengeId (user_id user) now Hfind) as Hself.
  assert (LeaderboardRoute.findUser
            (withParticipations db
               (participations db ++ [mkParticipation challengeId (user_id user) now]))
            email = Some user) as Hu' by exact Hu.
  split.
  - unfold POST. rewrite Hs, Hu'. simpl challenges. rewrite Hc, Hself.
    now destruct (endDate challenge <? later)%Z.
  - unfold DELETE. rewrite Hs, Hu', Hself. f_equal.
    cbn [participations withParticipations].
    rewrite (filter_snoc_self db challengeId (user_id user) now Hfind).
    destruct db; reflexivity.
Qed.

End JoinFacts.

Section ChallengeLifeFacts.
Import Db Http Zod JoinRoute.

Variable parseDate : string -> option Z.

Lemma create_outcome (db : Db.t) (session : Session) (body : Body)
    (newId : string) (now : Z) :
  (snd (ChallengesRoute.POST parseDate db session body newId now) = db /\
   forall c, fst (ChallengesRoute.POST parseDate db session body newId now)
             <> Success 201 c) \/
  exists userId challenge,
    Js.truthy_str (session ≫= su_id) = Some userId /\
    challenges db !! newId = None /\
    ChallengesRoute.POST parseDate db session body newId now
    = (Success 201 challenge,
       Db.mk (users db) (meals db) (foodEntries db)
             (<[newId := challenge]> (challenges db))
             (participations db ++ [mkParticipation newId userId now])
             (activities db)).
Proof.
  unfold ChallengesRoute.POST.
  destruct (Js.truthy_str _) as [userId|] eqn:Hs;
    [|left; split; [reflexivity|discriminate]].
  destruct body as [| |fields]; [left; split; [reflexivity|discriminate]| |].
  - destruct (ChallengesRoute.challengeSchema NonObject) as [[|? ?]|?] eqn:Hp;
      try (left; split; [reflexivity|discriminate]). discriminate Hp.
  - destruct (ChallengesRoute.challengeSchema (Object fields)) as [[|? ?]|data] eqn:Hp;
      try (left; split; [reflexivity|discriminate]).
    destruct (parseDate (ChallengesRoute.in_startDate data)) as [s|];
      [|left; split; [reflexivity|discriminate]].
    destruct (parseDate (ChallengesRoute.in_endDate data)) as [e|];
      [|left; split; [reflexivity|discriminate]].
    destruct (challenges db !! newId) eqn:Hfresh;
      [left; split; [reflexivity|discriminate]|].
    right. eexists userId, _. repeat split; try reflexivity; assumption.
Qed.

Lemma unique_snoc (db : Db.t) (challenges' : gmap string Challenge)
    (p : ChallengeParticipation) :
  unique db ->
  (forall id, is_Some (challenges db !! id) -> is_Some (challenges' !! id)) ->
  ~ In (key p) (map key (participations db)) ->
  is_Some (challenges' !! cp_challengeId p) ->
  unique (Db.mk (users db) (meals db) (foodEntries db) challenges'
                (participations db ++ [p]) (activities db)).
Proof.
  intros [Hnd Hint] Hkeep Hnew Hex. split; simpl.
  - rewrite map_app. simpl. now apply nodup_snoc.
  - intros q. rewrite in_app_iff. simpl. intros [Hq|[<-|[]]]; [|assumption].
    apply Hkeep, Hint, Hq.
Qed.

(** Creating a challenge, joining one and leaving one keep the
    participations well formed, whether the request succeeds or is refused:
    no user takes part twice in the same challenge, and every participation
    is in a challenge that exists. *)
Theorem participations_stay_unique (db : Db.t) (request : Request) :
  unique db -> unique (handle parseDate db request).
Proof.
  intros Hu. pose proof Hu as [Hnd Hint].
  destruct request as [session body newId now|session challengeId now
                       |session challengeId]; simpl.
  - destruct (create_outcome db session body newId now)
      as [[-> _]|(userId & challenge & _ & Hfresh & ->)]; [assumption|].
    simpl. apply unique_snoc; try assumption.
    + intros id Hid. apply lookup_insert_is_Some'. now right.
    + intros Hin. apply in_map_iff in Hin as (q & Hkey & Hq).
      destruct (Hint q Hq) as [c Hc]. unfold key in Hkey. simpl in Hkey.
      injection Hkey as Hq1 _. congruence.
    + simpl. apply lookup_insert_is_Some'. now left.
  - destruct (join_outcome db session challengeId now)
      as [[-> _]|(email & user & challenge & _ & _ & Hc & _ & Hfind & ->)];
      [assumption|].
    simpl. destruct db as [us ms fs cs ps acts]. simpl in *.
    apply (unique_snoc (Db.mk us ms fs cs ps acts) cs); simpl; auto.
    now apply findParticipation_None in Hfind.
  - unfold DELETE.
    destruct (Js.truthy_str _) as [email|]; [|assumption].
    destruct (LeaderboardRoute.findUser db email) as [user|]; [|assumption].
    destruct (findParticipation db challengeId (user_id user)); [|assumption].
    split; simpl.
    + now apply nodup_map_filter.
    + intros p Hp. apply in_filter in Hp as [_ Hp]. now apply Hint.
Qed.

Lemma filter_none (newId : string) (rows : list ChallengeParticipation) :
  (forall p, In p rows -> cp_challengeId p <> newId) ->
  filter (fun p => cp_challengeId p = newId) rows = [].
Proof.
  induction rows as [|p ps IH]; intros Hall; [reflexivity|].
  rewrite filter_cons_False by (apply Hall; now left).
  apply IH. intros q Hq. apply Hall. now right.
Qed.

(** After a challenge has been created, the leaderboard of the new
    challenge, for any signed-in viewer, lists exactly its creator, at
    rank 1; this needs the participations to be well formed before. *)
Theorem new_challenge_has_its_creator_on_the_leaderboard
    (db db1 : Db.t) (session viewer : Session) (body : Body) (newId : string)
    (now : Z) (created : Challenge) (email : string) (user : User) :
  unique db ->
  ChallengesRoute.POST parseDate db session body newId now = (Success 201 created, db1) ->
  Js.truthy_str (viewer ≫= su_email) = Some email ->
  LeaderboardRoute.findUser db email = Some user ->
  exists creator,
    Js.truthy_str (session ≫= su_id) = Some creator /\
    LeaderboardRoute.GET db1 viewer newId
    = Success 200
        (LeaderboardRoute.mkPayload created
           [LeaderboardRoute.mkEntry creator "Test User" "test@test.com" 0 0 now false 1]).
Proof.
  intros [_ Hint] Hpost Hviewer Huser.
  destruct (create_outcome db session body newId now)
    as [[_ Hno]|(creator & challenge & Hs & Hfresh & Heq)].
  { exfalso. apply (Hno created). now rewrite Hpost. }
  rewrite Heq in Hpost. injection Hpost as <- <-.
  exists creator. split; [exact Hs|].
  unfold LeaderboardRoute.GET. rewrite Hviewer.
  change (LeaderboardRoute.findUser _ email) with (LeaderboardRoute.findUser db email).
  rewrite Huser. cbn [challenges]. rewrite lookup_insert_eq.
  unfold LeaderboardRoute.findParticipants. cbn [participations].
  assert (filter (fun p => cp_challengeId p = newId) (participations db) = []) as Hnone.
  { apply filter_none. intros p Hp Hid.
    destruct (Hint p Hp) as [c Hc]. congruence. }
  rewrite filter_app, Hnone. simpl app.
  rewrite filter_cons_True by reflexivity. rewrite filter_nil. reflexivity.
Qed.

End ChallengeLifeFacts.

Lemma sampleDb_unique : JoinRoute.unique Examples.sampleDb.
Proof.
  split.
  - simpl. repeat constructor; simpl; intuition discriminate.
  - intros p [<-|[<-|[]]]; simpl; apply lookup_insert_is_Some'; now left.
Qed.

Lemma participations_stay_unique_witness :
  JoinRoute.unique
    (JoinRoute.handle Examples.anyDate Examples.sampleDb
       (JoinRoute.Leave Examples.ann "c1")).
Proof.
  apply (participations_stay_unique Examples.anyDate Examples.sampleDb).
  exact sampleDb_unique.
Defined.

Lemma join_then_leave_round_trip_witness :
  JoinRoute.DELETE
    (snd (JoinRoute.POST Examples.sampleDb Examples.ann "c2" 50)) Examples.ann "c2"
  = (Http.Success 200 "Left challenge successfully"%string, Examples.sampleDb).
Proof.
  apply (join_then_leave_round_trip Examples.sampleDb _ Examples.ann "c2" 50 60
           "Joined challenge successfully").
  reflexivity.
Defined.

Lemma goodChallenge_created :
  exists created db1,
    ChallengesRoute.POST Examples.anyDate Examples.sampleDb Examples.ann
      (Zod.Object Samples.goodChallenge) "c9" 70 = (Http.Success 201 created, db1).
Proof.
  unfold ChallengesRoute.POST. simpl Js.truthy_str.
  unfold ChallengesRoute.challengeSchema, Zod.object, ChallengesRoute.challengeShape.
  replace (Samples.goodChallenge !! "goalValue"%string) with (Some (Zod.JNumber 100))
    by reflexivity.
  unfold Zod.number_positive. rewrite (proj2 (gt_true 100 0)) by lra.
  eexists _, _. reflexivity.
Qed.

Lemma new_challenge_has_its_creator_on_the_leaderboard_witness :
  exists created db1 creator,
    ChallengesRoute.POST Examples.anyDate Examples.sampleDb Examples.ann
      (Zod.Object Samples.goodChallenge) "c9" 70 = (Http.Success 201 created, db1) /\
    LeaderboardRoute.GET db1 Examples.ann "c9"
    = Http.Success 200
        (LeaderboardRoute.mkPayload created
           [LeaderboardRoute.mkEntry creator "Test User" "test@test.com" 0 0 70 false 1]).
Proof.
  destruct goodChallenge_created as (created & db1 & Heq).
  destruct (new_challenge_has_its_creator_on_the_leaderboard Examples.anyDate
              Examples.sampleDb db1 Examples.ann Examples.ann
              (Zod.Object Samples.goodChallenge) "c9" 70 created
              "ann@example.org" (Db.mkUser "u1" "ann@example.org")
              sampleDb_unique Heq eq_refl eq_refl)
    as (creator & _ & Hget).
  exists created, db1, creator. split; [exact Heq|exact Hget].
Defined.

(** ** Ownership in the meal log *)

Section OwnershipFacts.
Import Db Http Zod Nutrition MealLog.

Variable parseDate : string -> option Z.

Lemma create_meal_owner (db : Db.t) (session : Session) (body : Body)
    (newId : string) (now : Z) :
  snd (MealsRoute.POST parseDate db session body newId now) = db \/
  exists userId created,
    Js.truthy_str (session ≫= su_id) = Some userId /\
    meals db !! newId = None /\
    meal_userId created = userId /\
    snd (MealsRoute.POST parseDate db session body newId now)
    = FoodsRoute.withMeals db (<[newId := created]> (meals db)).
Proof.
  unfold MealsRoute.POST.
  destruct (Js.truthy_str _) as [userId|] eqn:Hs; [|now left].
  destruct body as [| |fields]; [now left| |].
  - destruct (MealsRoute.mealSchema NonObject) as [[|? ?]|?] eqn:Hp;
      now left.
  - destruct (MealsRoute.mealSchema (Object fields)) as [[|? ?]|data] eqn:Hp;
      try (now left).
    cbv zeta.
    destruct (match Js.truthy_str (MealsRoute.in_date data) with
              | Some date => parseDate date
              | None => Some now
              end) as [mealDate|]; [|now left].
    destruct (meals db !! newId) eqn:Hfresh; [now left|].
    right. exists userId, (mkMeal userId mealDate 0 0 0 0). auto.
Qed.

Lemma add_food_owner (db : Db.t) (session : Session) (mealId : string)
    (body : Body) (newId : string) :
  snd (FoodsRoute.POST db session mealId body newId) = db \/
  exists userId m updated e,
    Js.truthy_str (session ≫= su_id) = Some userId /\
    meals db !! mealId = Some m /\
    meal_userId m = userId /\
    meal_userId updated = userId /\
    foodEntries db !! newId = None /\
    fe_mealId e = mealId /\
    snd (FoodsRoute.POST db session mealId body newId)
    = FoodsRoute.withMeals
        (FoodsRoute.withFoodEntries db (<[newId := e]> (foodEntries db)))
        (<[mealId := updated]> (meals db)).
Proof.
  unfold FoodsRoute.POST.
  destruct (Js.truthy_str _) as [userId|] eqn:Hs; [|now left].
  destruct (FoodsRoute.findMeal db mealId userId) as [m|] eqn:Hmeal; [|now left].
  destruct (findMeal_Some _ _ _ _ Hmeal) as [Hlookup Howner].
  destruct body as [| |fields]; [now left| |].
  - destruct (FoodsRoute.foodEntrySchema NonObject) as [[|? ?]|?] eqn:Hp;
      now left.
  - destruct (FoodsRoute.foodEntrySchema (Object fields)) as [[|? ?]|foodData] eqn:Hp;
      try (now left).
    destruct (foodEntries db !! newId) eqn:Hfresh; [now left|].
    simpl. rewrite Hlookup. right.
    eexists userId, m, _, _. repeat split; try eassumption; reflexivity.
Qed.

Lemma delete_food_owner (db : Db.t) (session : Session) (mealId : string)
    (foodEntryId : option string) :
  snd (FoodsRoute.DELETE db session mealId foodEntryId) = db \/
  exists userId id e owner,
    Js.truthy_str (session ≫= su_id) = Some userId /\
    foodEntryId = Some id /\
    foodEntries db !! id = Some e /\
    meals db !! fe_mealId e = Some owner /\
    meal_userId owner = userId /\
    (snd (FoodsRoute.DELETE db session mealId foodEntryId)
     = FoodsRoute.withFoodEntries db (delete id (foodEntries db)) \/
     exists m updated,
       meals db !! mealId = Some m /\
       meal_userId updated = meal_userId m /\
       snd (FoodsRoute.DELETE db session mealId foodEntryId)
       = FoodsRoute.withMeals
           (FoodsRoute.withFoodEntries db (delete id (foodEntries db)))
           (<[mealId := updated]> (meals db))).
Proof.
  unfold FoodsRoute.DELETE.
  destruct (Js.truthy_str (session ≫= su_id)) as [userId|] eqn:Hs; [|now left].
  destruct foodEntryId as [id|]; [|now left]. simpl.
  destruct (decide (id = ""%string)); [now left|].
  destruct (foodEntries db !! id) as [e|] eqn:He; [|now left].
  destruct (meals db !! fe_mealId e) as [owner|] eqn:Ho; [|now left].
  destruct (decide (meal_userId owner = userId)) as [Hown|]; [|now left].
  right. exists userId, id, e, owner. repeat split; try assumption.
  simpl. destruct (meals db !! mealId) as [m|] eqn:Hm; [right|now left].
  eexists m, _. split; [reflexivity|]. split; [|reflexivity]. reflexivity.
Qed.

Ltac rows :=
  cbv zeta; unfold ownedBy;
  cbn [meals foodEntries FoodsRoute.withMeals FoodsRoute.withFoodEntries].

(** A request changes only what its caller owns.  A food entry that was
    added or removed is an entry of a meal of the caller, on any route; and
    when the request is made on its own route, a meal row that differs
    afterwards belongs to the caller, before and after. *)
Theorem meal_log_changes_only_what_the_caller_owns
    (db : Db.t) (request : Request) (id : string) :
  let db' := handle parseDate db request in
  (foodEntries db' !! id <> foodEntries db !! id ->
   exists userId e,
     caller request = Some userId /\
     (foodEntries db !! id = Some e \/ foodEntries db' !! id = Some e) /\
     ownedBy db userId (fe_mealId e)) /\
  (onOwnRoute db request ->
   meals db' !! id <> meals db !! id ->
   exists userId,
     caller request = Some userId /\
     ownedBy db' userId id /\
     (is_Some (meals db !! id) -> ownedBy db userId id)).
Proof.
  destruct request as [session body newId now
                      |session mealId body newId
                      |session mealId foodEntryId]; cbn [handle caller].
  - destruct (create_meal_owner db session body newId now)
      as [->|(userId & created & Hs & Hfresh & Hown & ->)];
      [split; [intros H|intros _ H]; now destruct H|].
    rows. split; [intros H; now destruct H|]. intros _.
    destruct (decide (id = newId)) as [->|Hne].
    + intros _. exists userId. split; [exact Hs|]. split.
      * exists created. now rewrite lookup_insert_eq.
      * rewrite Hfresh. intros [? ?]. discriminate.
    + rewrite lookup_insert_ne by congruence. intros H; now destruct H.
  - destruct (add_food_owner db session mealId body newId)
      as [->|(userId & m & updated & e & Hs & Hm & Hown & Hup & Hfresh & Hmeal & ->)];
      [split; [intros H|intros _ H]; now destruct H|].
    rows. split.
    + destruct (decide (id = newId)) as [->|Hne].
      * intros _. exists userId, e. split; [exact Hs|]. split.
        -- right. now rewrite lookup_insert_eq.
        -- rewrite Hmeal. now exists m.
      * rewrite lookup_insert_ne by congruence. intros H; now destruct H.
    + intros _. destruct (decide (id = mealId)) as [->|Hne].
      * intros _. exists userId. split; [exact Hs|]. split.
        -- exists updated. now rewrite lookup_insert_eq.
        -- intros _. now exists m.
      * rewrite lookup_insert_ne by congruence. intros H; now destruct H.
  - destruct (delete_food_owner db session mealId foodEntryId)
      as [->|(userId & eid & e & owner & Hs & -> & He & Ho & Hown & Hout)];
      [split; [intros H|intros _ H]; now destruct H|].
    assert (foodEntries db !! id <> foodEntries (FoodsRoute.withFoodEntries db
              (delete eid (foodEntries db))) !! id ->
            exists userId0 e0,
              Js.truthy_str (session ≫= su_id) = Some userId0 /\
              (foodEntries db !! id = Some e0 \/
               delete eid (foodEntries db) !! id = Some e0) /\
              ownedBy db userId0 (fe_mealId e0)) as Hentries.
    { rows. destruct (decide (id = eid)) as [->|Hne].
      - intros _. exists userId, e. split; [exact Hs|]. split; [now left|].
        now exists owner.
      - rewrite lookup_delete_ne by congruence. intros H; now destruct H. }
    destruct Hout as [->|(m & updated & Hm & Hup & ->)].
    + rows. split; [|intros _ H; now destruct H].
      intros H. apply Hentries. rows. congruence.
    + rows. split; [intros H; apply Hentries; rows; congruence|].
      intros Hroute. cbn in Hroute. specialize (Hroute e He).
      destruct (decide (id = mealId)) as [->|Hne].
      * intros _. exists userId. split; [exact Hs|].
        rewrite Hroute in Ho. assert (m = owner) as -> by congruence. split.
        -- exists updated. rewrite lookup_insert_eq. split; congruence.
        -- intros _. now exists owner.
      * rewrite lookup_insert_ne by congruence. intros H; now destruct H.
Qed.

(** A request that is not answered with a success status leaves the
    database as it was; for a delete request this needs the route to name
    the meal of the entry. *)
Theorem refused_meal_request_changes_nothing (db : Db.t) (request : Request) :
  onOwnRoute db request ->
  succeeded parseDate db request = false ->
  handle parseDate db request = db.
Proof.
  intros Hroute.
  destruct request as [session body newId now
                      |session mealId body newId
                      |session mealId foodEntryId]; cbn [handle succeeded].
  - unfold MealsRoute.POST.
    destruct (Js.truthy_str _) as [userId|]; [|reflexivity].
    destruct body as [| |fields]; [reflexivity| |].
    + destruct (MealsRoute.mealSchema NonObject) as [[|? ?]|?] eqn:Hp;
        try reflexivity. discriminate Hp.
    + destruct (MealsRoute.mealSchema (Object fields)) as [[|? ?]|data];
        try reflexivity.
      cbv zeta.
      destruct (match Js.truthy_str (MealsRoute.in_date data) with
                | Some date => parseDate date
                | None => Some now
                end) as [mealDate|]; [|reflexivity].
      destruct (meals db !! newId); [reflexivity|discriminate].
  - unfold FoodsRoute.POST.
    destruct (Js.truthy_str _) as [userId|]; [|reflexivity].
    destruct (FoodsRoute.findMeal db mealId userId) as [m|] eqn:Hmeal; [|reflexivity].
    destruct (findMeal_Some _ _ _ _ Hmeal) as [Hlookup _].
    destruct body as [| |fields]; [reflexivity| |].
    + destruct (FoodsRoute.foodEntrySchema NonObject) as [[|? ?]|?] eqn:Hp;
        try reflexivity. discriminate Hp.
    + destruct (FoodsRoute.foodEntrySchema (Object fields)) as [[|? ?]|foodData];
        try reflexivity.
      destruct (foodEntries db !! newId); [reflexivity|].
      simpl. rewrite Hlookup. discriminate.
  - unfold FoodsRoute.DELETE.
    destruct (Js.truthy_str (session ≫= su_id)) as [userId|]; [|reflexivity].
    destruct foodEntryId as [id|]; [|reflexivity]. simpl.
    destruct (decide (id = ""%string)); [reflexivity|].
    destruct (foodEntries db !! id) as [e|] eqn:He; [|reflexivity].
    destruct (meals db !! fe_mealId e) as [owner|] eqn:Ho; [|reflexivity].
    destruct (decide (meal_userId owner = userId)); [|reflexivity].
    simpl in Hroute. rewrite (Hroute e He) in Ho.
    simpl. rewrite Ho. discriminate.
Qed.

End OwnershipFacts.

Lemma pantry_after_delete :
  Db.meals (MealLog.handle Examples.anyDate Samples.pantry
              (MealLog.DeleteFood Examples.ann "m1" (Some "f1"%string))) !! "m1"%string
  = Some (FoodsRoute.decrement Samples.oatMeal (100 * 2) (5 * 2) (27 * 2) (3 * 2)).
Proof. reflexivity. Qed.

Lemma meal_log_changes_only_what_the_caller_owns_witness :
  exists userId,
    MealLog.caller (MealLog.DeleteFood Examples.ann "m1" (Some "f1"%string))
    = Some userId /\
    MealLog.ownedBy
      (MealLog.handle Examples.anyDate Samples.pantry
         (MealLog.DeleteFood Examples.ann "m1" (Some "f1"%string)))
      userId "m1".
Proof.
  destruct (meal_log_changes_only_what_the_caller_owns Examples.anyDate
              Samples.pantry
              (MealLog.DeleteFood Examples.ann "m1" (Some "f1"%string)) "m1")
    as [_ Hmeals].
  destruct Hmeals as (userId & Hs & Hown & _).
  - intros e He. change (Some (Db.mkFoodEntry "m1" "Oats" 2 100 5 27 3) = Some e) in He.
    injection He as <-. reflexivity.
  - rewrite pantry_after_delete.
    change (Db.meals Samples.pantry !! "m1"%string) with (Some Samples.oatMeal).
    intros [= Hcalories _ _ _]. lra.
  - now exists userId.
Defined.

Lemma refused_meal_request_changes_nothing_witness :
  MealLog.handle Examples.anyDate Samples.kitchen0
    (MealLog.AddFood Samples.bob "m1" (Zod.Object (Examples.foodRequest 2)) "f1")
  = Samples.kitchen0.
Proof.
  apply (refused_meal_request_changes_nothing Examples.anyDate Samples.kitchen0
           (MealLog.AddFood Samples.bob "m1" (Zod.Object (Examples.foodRequest 2)) "f1")
           I eq_refl).
Defined.

(** ** The list of challenges *)

Section ChallengesListFacts.
Import Db Http Zod JoinRoute ChallengesList.

Lemma mine_lookup (db : Db.t) (userId id : string) (c : Challenge) :
  mine db userId !! id = Some c <->
  challenges db !! id = Some c /\ (ch_creatorId c = userId \/ participates db userId id).
Proof. unfold mine. rewrite map_lookup_filter_Some. simpl. tauto. Qed.

Lemma participates_find (db : Db.t) (userId id : string) :
  participates db userId id <-> is_Some (findParticipation db id userId).
Proof.
  unfold participates, findParticipation.
  induction (participations db) as [|p ps IH]; simpl.
  - split; [intros H; inversion H|intros [? ?]; discriminate].
  - rewrite Exists_cons, IH. destruct (bool_decide _) eqn:Hp.
    + apply bool_decide_eq_true in Hp. split; [eauto|tauto].
    + apply bool_decide_eq_false in Hp. tauto.
Qed.

Lemma GET_all (db : Db.t) (session : Session) (userId : string)
    (now : Z) (clock : string -> Z) :
  Js.truthy_str (session ≫= su_id) = Some userId ->
  GET db session None now clock = Success 200 (mine db userId).
Proof. unfold GET. now intros ->. Qed.

Lemma GET_active (db : Db.t) (session : Session) (userId : string)
    (now : Z) (clock : string -> Z) :
  Js.truthy_str (session ≫= su_id) = Some userId ->
  GET db session (Some "active"%string) now clock
  = Success 200 (filter (fun row => (clock row.1 <= endDate row.2)%Z) (mine db userId)).
Proof. unfold GET. now intros ->. Qed.

Lemma GET_completed (db : Db.t) (session : Session) (userId : string)
    (now : Z) (clock : string -> Z) :
  Js.truthy_str (session ≫= su_id) = Some userId ->
  GET db session (Some "completed"%string) now clock
  = Success 200 (filter (fun row => (endDate row.2 < clock row.1)%Z) (mine db userId)).
Proof. unfold GET. now intros ->. Qed.

Lemma GET_unauthorized (db : Db.t) (session : Session) (type : option string)
    (now : Z) (clock : string -> Z) :
  Js.truthy_str (session ≫= su_id) = None ->
  GET db session type now clock = Failure 401 (Custom "Unauthorized").
Proof. unfold GET. now intros ->. Qed.

(** Whatever instants the clock shows, every challenge the user created
    or joined is in exactly one of the lists [active] and [completed], and
    these two lists hold nothing else. *)
Theorem active_and_completed_split_my_challenges
    (db : Db.t) (session : Session) (now : Z) (clock : string -> Z) (id : string) :
  (listed db session None now clock id <->
   listed db session (Some "active"%string) now clock id \/
   listed db session (Some "completed"%string) now clock id) /\
  ~ (listed db session (Some "active"%string) now clock id /\
     listed db session (Some "completed"%string) now clock id).
Proof.
  unfold listed.
  destruct (Js.truthy_str (session ≫= su_id)) as [userId|] eqn:Hs.
  2:{ rewrite !(GET_unauthorized db session _ now clock Hs).
      split; [split|]; [intros (? & ? & _)|intros [(? & ? & _)|(? & ? & _)]
                       |intros [(? & ? & _) _]]; discriminate. }
  rewrite (GET_all db session userId now clock Hs),
          (GET_active db session userId now clock Hs),
          (GET_completed db session userId now clock Hs).
  split; [split|].
  - intros (rows & [= <-] & [c Hc]).
    destruct (Z_le_gt_dec (clock id) (endDate c)) as [Hle|Hgt]; [left|right];
      eexists; (split; [reflexivity|]); exists c;
      apply map_lookup_filter_Some; (split; [exact Hc|simpl; lia]).
  - intros [(rows & [= <-] & [c Hc])|(rows & [= <-] & [c Hc])];
      apply map_lookup_filter_Some in Hc as [Hc _];
      eexists; (split; [reflexivity|]); now exists c.
  - intros [(rows & [= <-] & [c Hc]) (rows' & [= <-] & [c' Hc'])].
    apply map_lookup_filter_Some in Hc as [Hc Hle].
    apply map_lookup_filter_Some in Hc' as [Hc' Hgt].
    simpl in *. assert (c = c') as -> by congruence. lia.
Qed.

(** A user who has joined a challenge finds it in the list of their
    challenges, and in the list of the active ones for as long as the clock
    has not passed its end date. *)
Theorem joined_challenge_is_listed
    (db db1 : Db.t) (session : Session) (user : User) (challengeId msg : string)
    (joined now : Z) (clock : string -> Z) :
  signedIn db session user ->
  JoinRoute.POST db session challengeId joined = (Success 200 msg, db1) ->
  exists challenge,
    challenges db !! challengeId = Some challenge /\
    listed db1 session None now clock challengeId /\
    (listed db1 session (Some "active"%string) now clock challengeId <->
     (clock challengeId <= endDate challenge)%Z).
Proof.
  intros (email & Hemail & Huser & Hid) Hjoin.
  destruct (join_outcome db session challengeId joined)
    as [[_ Hno]|(email' & user' & challenge & Hs & Hu & Hc & _ & Hfind & Heq)].
  { exfalso. apply (Hno msg). now rewrite Hjoin. }
  rewrite Heq in Hjoin. injection Hjoin as _ <-.
  assert (user' = user) as -> by congruence.
  exists challenge. split; [exact Hc|].
  assert (mine (withParticipations db
                  (participations db ++ [mkParticipation challengeId (user_id user) joined]))
               (user_id user) !! challengeId = Some challenge) as Hmine.
  { apply mine_lookup. split; [exact Hc|]. right.
    unfold participates. cbn [participations withParticipations].
    apply Exists_app. right. constructor. auto. }
  unfold listed.
  rewrite (GET_all _ session (user_id user) now clock Hid),
          (GET_active _ session (user_id user) now clock Hid).
  split; [|split].
  - eexists. split; [reflexivity|]. now exists challenge.
  - intros (rows & [= <-] & [c Hrow]).
    apply map_lookup_filter_Some in Hrow as [Hrow Hle]. simpl in Hle.
    assert (c = challenge) as <- by congruence. exact Hle.
  - intros Hle. eexists. split; [reflexivity|]. exists challenge.
    apply map_lookup_filter_Some. split; [exact Hmine|exact Hle].
Qed.

(** A user who has left a challenge somebody else created no longer
    finds it in any list of their challenges. *)
Theorem left_challenge_is_not_listed
    (db db1 : Db.t) (session : Session) (user : User) (challengeId msg : string)
    (type : option string) (now : Z) (clock : string -> Z) :
  signedIn db session user ->
  JoinRoute.DELETE db session challengeId = (Success 200 msg, db1) ->
  (forall challenge, challenges db !! challengeId = Some challenge ->
                     ch_creatorId challenge <> user_id user) ->
  type <> Some "public"%string ->
  ~ listed db1 session type now clock challengeId.
Proof.
  intros (email & Hemail & Huser & Hid) Hleave Hother Htype.
  unfold JoinRoute.DELETE in Hleave. rewrite Hemail, Huser in Hleave.
  destruct (findParticipation db challengeId (user_id user)) as [p|] eqn:Hp;
    [|discriminate].
  injection Hleave as _ <-.
  assert (forall c, mine (withParticipations db
                      (filter (fun p => ~ (cp_challengeId p = challengeId
                                           /\ cp_userId p = user_id user))
                              (participations db)))
                    (user_id user) !! challengeId <> Some c) as Hmine.
  { intros c Hc. apply mine_lookup in Hc as [Hc [Hcreator|Hpart]].
    - exact (Hother c Hc Hcreator).
    - unfold participates in Hpart. cbn [participations withParticipations] in Hpart.
      apply Exists_exists in Hpart as (q & Hq & Hkey).
      apply list_elem_of_filter in Hq as [Hq _]. exact (Hq Hkey). }
  unfold listed, GET. rewrite Hid.
  destruct (decide (type = Some "public"%string)) as [?|_]; [congruence|].
  intros (rows & Hrows & [c Hc]).
  destruct (decide (type = Some "active"%string)) as [_|_];
    [|destruct (decide (type = Some "completed"%string)) as [_|_]];
    injection Hrows as <-.
  - apply map_lookup_filter_Some in Hc as [Hc _]. exact (Hmine c Hc).
  - apply map_lookup_filter_Some in Hc as [Hc _]. exact (Hmine c Hc).
  - exact (Hmine c Hc).
Qed.

End ChallengesListFacts.

Lemma ann_signedIn :
  ChallengesList.signedIn Examples.sampleDb Examples.ann (Db.mkUser "u1" "ann@example.org").
Proof. exists "ann@example.org"%string. repeat split; reflexivity. Qed.

Lemma bob_signedIn :
  ChallengesList.signedIn Examples.sampleDb Samples.bob (Db.mkUser "u2" "bob@example.org").
Proof. exists "bob@example.org"%string. repeat split; reflexivity. Qed.

Lemma joined_challenge_is_listed_witness :
  exists challenge,
    Db.challenges Examples.sampleDb !! "c2"%string = Some challenge /\
    ChallengesList.listed
      (snd (JoinRoute.POST Examples.sampleDb Examples.ann "c2" 50))
      Examples.ann None 60 (fun _ => 60%Z) "c2" /\
    (ChallengesList.listed
       (snd (JoinRoute.POST Examples.sampleDb Examples.ann "c2" 50))
       Examples.ann (Some "active"%string) 60 (fun _ => 60%Z) "c2" <->
     (60 <= Db.endDate challenge)%Z).
Proof.
  exact (joined_challenge_is_listed Examples.sampleDb _ Examples.ann
           (Db.mkUser "u1" "ann@example.org") "c2" "Joined challenge successfully"
           50 60 (fun _ => 60%Z) ann_signedIn eq_refl).
Defined.

Lemma left_challenge_is_not_listed_witness :
  ~ ChallengesList.listed
      (snd (JoinRoute.DELETE Examples.sampleDb Samples.bob "c1"))
      Samples.bob None 60 (fun _ => 60%Z) "c1".
Proof.
  apply (left_challenge_is_not_listed Examples.sampleDb _ Samples.bob
           (Db.mkUser "u2" "bob@example.org") "c1" "Left challenge successfully"
           None 60 (fun _ => 60%Z) bob_signedIn eq_refl).
  - intros challenge Hc.
    change (Some Examples.runners = Some challenge) in Hc.
    injection Hc as <-. discriminate.
  - discriminate.
Defined.

(** ** What the pages display *)

Section PageFacts.
Import Db ActivityDetail ChallengePage.

(** The pace shown is the pace rounded to whole seconds, but the seconds
    are not carried into the minutes: the seconds field lies between 0 and
    60, and reads 60 exactly when the pace is within half a second below a
    full minute. *)
Theorem formatPace_rounds_to_the_second_without_carry (pace : R) :
  (60 * paceMinutes pace + paceSeconds pace = InsightsRoute.round (60 * pace))%Z /\
  (0 <= paceSeconds pace <= 60)%Z /\
  (paceSeconds pace = 60%Z <-> IZR (paceMinutes pace) + 119 / 120 <= pace).
Proof.
  unfold paceSeconds, paceMinutes, InsightsRoute.round.
  pose proof (Zfloor_bound pace) as Hm.
  set (m := Zfloor pace) in *.
  pose proof (Zfloor_bound ((pace - IZR m) * 60 + 1 / 2)) as Hs.
  set (s := Zfloor ((pace - IZR m) * 60 + 1 / 2)) in *.
  split; [|split; [split|split]].
  - replace (60 * pace + 1 / 2) with ((pace - IZR m) * 60 + 1 / 2 + IZR (60 * m))
      by (rewrite mult_IZR; lra).
    rewrite Zfloor_addz. fold s. lia.
  - apply Z.lt_succ_r, lt_IZR. rewrite succ_IZR. lra.
  - apply Z.lt_succ_r, lt_IZR. rewrite succ_IZR. lra.
  - intros Heq. rewrite Heq in Hs. lra.
  - intros Hhigh. apply Z.le_antisymm.
    + apply Z.lt_succ_r, lt_IZR. rewrite succ_IZR. lra.
    + assert (59 < s)%Z by (apply lt_IZR; lra). lia.
Qed.

Lemma day_pos : 0 < IZR day.
Proof. apply IZR_lt. reflexivity. Qed.

(** The number of days on the badge is never negative; it is the least
    number of whole days that, counted from now, reach the end date; and
    it is 0 exactly when the end date is not ahead. *)
Theorem daysRemaining_is_the_least_number_of_days
    (challenge : Challenge) (now : Z) :
  let n := daysRemaining (Some challenge) now in
  (0 <= n)%Z /\
  (endDate challenge <= now + n * day)%Z /\
  (forall k, (0 <= k)%Z -> (endDate challenge <= now + k * day)%Z -> (n <= k)%Z) /\
  (n = 0%Z <-> (endDate challenge <= now)%Z).
Proof.
  cbv zeta. unfold daysRemaining.
  pose proof day_pos as Hday.
  pose proof (Zceil_bound (IZR (endDate challenge - now) / IZR day)) as Hc.
  set (c := Zceil (IZR (endDate challenge - now) / IZR day)) in *.
  assert (IZR (endDate challenge - now) / IZR day * IZR day
          = IZR (endDate challenge - now)) as Hx by (field; lra).
  assert (IZR (endDate challenge - now) <= IZR c * IZR day) as Hup.
  { rewrite <- Hx. apply Rmult_le_compat_r; lra. }
  assert (IZR c * IZR day - IZR day < IZR (endDate challenge - now)) as Hlow.
  { rewrite <- Hx.
    replace (IZR c * IZR day - IZR day) with ((IZR c - 1) * IZR day) by ring.
    apply Rmult_lt_compat_r; lra. }
  rewrite <- mult_IZR in Hup, Hlow. rewrite <- minus_IZR in Hlow.
  apply le_IZR in Hup. apply lt_IZR in Hlow.
  assert (0 < day)%Z as Hd by reflexivity.
  split; [lia|]. split; [nia|]. split; [intros k Hk Hend; nia|].
  split; intros H; nia.
Qed.

End PageFacts.
